(** * TheLeagueWiki-LLM: the wiki fetcher and the document exporter

    A shallow embedding of [src/convert_wiki.py] and [src/WikiScraper.py]
    and the properties of their specification.

    Python strings are sequences of Unicode code points; they are modelled
    as lists of code points.  Dictionaries decoded from JSON and the output
    directory are finite maps.  Network replies are data handed to the
    functions, so that every function below is executable.

    The exporter runs on a POSIX system: a file name is encoded as UTF-8
    with the surrogate escape of [os.fsencode] and has at most 255 bytes,
    and text files and standard output are UTF-8 without an error
    handler, so that a lone surrogate cannot be written or printed.  The
    output directory holds regular files that can be written, and the
    disk is not full.  A message that is printed is modelled where it
    holds data of the JSON file; the other messages and the delay
    between requests leave no trace in the results and are left out. *)

From Stdlib Require Import ZArith NArith Ascii String DecimalString DecimalPos DecimalZ.
From stdpp Require Import gmap list fin_maps.

Set Default Proof Using "Type".

(** ** Python strings *)

Module PyStr.

(** A character is its code point. *)
Abbreviation char := N (only parsing).
Abbreviation str := (list N) (only parsing).

Definition nl : str := [10%N].

(** An ASCII literal as a Python string. *)
Definition py (s : string) : str := N_of_ascii <$> list_ascii_of_string s.

(** [str.isspace] on one character, which is also what [\s] matches in a
    [str] pattern and what [str.strip()] and [str.split()] treat as
    white space. *)
Definition isspace (c : char) : bool :=
  ((9 <=? c) && (c <=? 13) || (28 <=? c) && (c <=? 32)
   || (c =? 133) || (c =? 160) || (c =? 5760)
   || (8192 <=? c) && (c <=? 8202)
   || (c =? 8232) || (c =? 8233) || (c =? 8239) || (c =? 8287)
   || (c =? 12288))%N.

(** [c in chars] for a one-character string [c]. *)
Definition char_in (chars : str) (c : char) : bool :=
  existsb (N.eqb c) chars.

(** [s.lstrip(...)]: drop the leading characters that satisfy [p]. *)
Fixpoint lstrip (p : char → bool) (s : str) : str :=
  match s with
  | [] => []
  | c :: rest => if p c then lstrip p rest else s
  end.

(** [s.rstrip(...)]. *)
Definition rstrip (p : char → bool) (s : str) : str :=
  reverse (lstrip p (reverse s)).

(** [s.strip(chars)] and [s.strip()]. *)
Definition strip_by (p : char → bool) (s : str) : str := rstrip p (lstrip p s).
Definition strip_chars (chars : str) : str → str := strip_by (char_in chars).
Definition strip : str → str := strip_by isspace.

(** [s.replace(old, new)] for one-character [old] and [new]. *)
Definition replace (old new : char) (s : str) : str :=
  (λ c, if (c =? old)%N then new else c) <$> s.

(** [s.split()]: the maximal runs of characters that are not white space.
    [word] is the run being read, in reverse. *)
Fixpoint split_from (word : str) (s : str) : list str :=
  match s with
  | [] => match word with [] => [] | _ => [reverse word] end
  | c :: rest =>
      if isspace c
      then match word with
           | [] => split_from [] rest
           | _ => reverse word :: split_from [] rest
           end
      else split_from (c :: word) rest
  end.
Definition split (s : str) : list str := split_from [] s.

(** A surrogate code point, U+D800 to U+DFFF. *)
Definition surrogate (c : char) : bool := ((55296 <=? c) && (c <=? 57343))%N.

(** [s.encode('utf-8')] succeeds: [s] has no surrogate.  This is what a
    file opened with [encoding='utf-8'] and standard output take. *)
Definition encodable (s : str) : bool := forallb (λ c, negb (surrogate c)) s.

(** [str(n)] for an [int]. *)
Definition str_of_int (z : Z) : str := py (NilZero.string_of_int (Z.to_int z)).

(** *** The two regular expressions of the exporter

    [re.sub(pattern, repl, s)] scans [s] from the left; where the pattern
    matches it writes [repl] and resumes after the match, elsewhere it
    copies the character.  Only two shapes of pattern occur: a character
    class, and a character class under [+]; neither matches the empty
    string. *)
Inductive pattern :=
| Class (p : char → bool)
| ClassPlus (p : char → bool).

(** Length of the run of [p] at the head of [s]. *)
Fixpoint run_length (p : char → bool) (s : str) : nat :=
  match s with
  | c :: rest => if p c then S (run_length p rest) else 0
  | [] => 0
  end.

(** The match at the head of [s], as the number of characters it takes. *)
Definition match_length (pat : pattern) (s : str) : option nat :=
  match pat with
  | Class p =>
      match s with
      | c :: _ => if p c then Some 1 else None
      | [] => None
      end
  | ClassPlus p =>
      match run_length p s with
      | 0 => None
      | n => Some n
      end
  end.

(** [inside] counts the characters of the current match still to skip. *)
Fixpoint re_sub_from (pat : pattern) (repl : str) (inside : nat) (s : str) : str :=
  match s with
  | [] => []
  | c :: rest =>
      match inside with
      | S k => re_sub_from pat repl k rest
      | 0 =>
          match match_length pat s with
          | Some (S k) => repl ++ re_sub_from pat repl k rest
          | _ => c :: re_sub_from pat repl 0 rest
          end
      end
  end.
Definition re_sub (pat : pattern) (repl : str) (s : str) : str :=
  re_sub_from pat repl 0 s.

End PyStr.

Import PyStr.

(** ** JSON values

    What [json.load] and [response.json()] hand to the code.  The code
    tells strings from everything else; a float, an array or a nested
    object is only ever formatted, and is kept as the text [str()] gives
    for it. *)

Inductive json :=
| JNull
| JBool (b : bool)
| JInt (z : Z)
| JStr (s : str)
| JOther (text : str).

(** What an f-string writes for a value. *)
Definition format (v : json) : str :=
  match v with
  | JNull => py "None"
  | JBool true => py "True"
  | JBool false => py "False"
  | JInt z => str_of_int z
  | JStr s => s
  | JOther text => text
  end.

Inductive exn :=
| AttributeError | TypeError | KeyError | NameError
| ValueError | OSError | UnicodeEncodeError.

(** The outcome of one HTTP exchange: [session.get], [raise_for_status]
    or [response.json()] raised, or the decoded body. *)
Inductive reply (A : Type) :=
| Failed
| Json (data : A).
Arguments Failed {A}.
Arguments Json {A} data.

(** ** [WikiScraper.py] *)

Module Fetcher.

Record MediaWikiScraper := { base_url : str }.

(** [__init__], line 24. *)
Definition init (url : str) : MediaWikiScraper :=
  {| base_url := rstrip (char_in (py "/")) url |}.

(** *** [get_all_page_titles] *)

(** One entry of [data['query']['allpages']]. *)
Record page := { page_title : option str }.

(** The body of a listing reply: [data['query']['allpages']] when both
    keys are there, and [data['continue']['apcontinue']] likewise.  The
    members have the types of the MediaWiki API: objects, an array of
    objects, strings. *)
Record listing := {
  allpages : option (list page);
  apcontinue : option str
}.

(** Truth value of [continue_token]: [None] and the empty string are
    false. *)
Definition truthy (v : option str) : bool :=
  match v with
  | Some (_ :: _) => true
  | _ => false
  end.

(** Lines 47-48: the [apcontinue] parameter of the request, [None] when
    the request has none. *)
Definition apcontinue_param (continue_token : option str) : option str :=
  if truthy continue_token then continue_token else None.

(** What a call has done when it returns: the list it returns, the
    [apcontinue] parameter of each request it sent, and the replies it
    did not read. *)
Record listing_run := {
  all_titles : list str;
  requests : list (option str);
  unread : list (reply listing)
}.

(** Line 57: the comprehension raises [KeyError] at a page without a
    title, before [extend] is called. *)
Definition extend_titles (titles : list str) (data : listing)
  : exn + list str :=
  match allpages data with
  | None => inr titles
  | Some pages =>
      match mapM page_title pages with
      | Some new => inr (titles ++ new)
      | None => inl KeyError
      end
  end.

(** The [while True] loop of lines 38-70, one reply of [script] per
    request.  [None]: the loop has sent its next request and the script
    holds no reply for it. *)
Fixpoint listing_loop (script : list (reply listing))
    (titles : list str) (continue_token : option str)
    (sent : list (option str)) : option listing_run :=
  match script with
  | [] => None
  | r :: rest =>
      let sent := sent ++ [apcontinue_param continue_token] in
      let break titles :=
        Some {| all_titles := titles; requests := sent; unread := rest |} in
      match r with
      | Failed => break titles
      | Json data =>
          match extend_titles titles data with
          | inl _ => break titles
          | inr titles =>
              match apcontinue data with
              | Some token => listing_loop rest titles (Some token) sent
              | None => break titles
              end
          end
      end
  end.

Definition get_all_page_titles (script : list (reply listing))
  : option listing_run :=
  listing_loop script [] None [].

(** *** [get_page_content] *)

(** [revision['slots']['main']['*']], [None] when a key is missing. *)
Record revision := { slots_main : option str }.

(** [page_data['revisions']], [None] when the key is missing. *)
Record page_data := { revisions : option (list revision) }.

(** [data.get('query', {}).get('pages', {})], in the order of the
    dictionary. *)
Abbreviation pages_dict := (list (str * page_data)) (only parsing).

(** The [for] loop of lines 92-95. *)
Fixpoint first_revision (pages : pages_dict) : exn + option str :=
  match pages with
  | [] => inr None
  | (_, pd) :: rest =>
      match revisions pd with
      | Some (rev0 :: _) =>
          match slots_main rev0 with
          | Some text => inr (Some text)
          | None => inl KeyError
          end
      | _ => first_revision rest
      end
  end.

Definition get_page_content (title : str) (r : reply pages_dict)
  : option str :=
  match r with
  | Failed => None
  | Json pages =>
      match first_revision pages with
      | inr result => result
      | inl _ => None
      end
  end.

(** *** [clean_wikitext] *)

Definition clean_wikitext (wikitext : option str) : str :=
  match wikitext with
  | Some (c :: w) => strip (c :: w)
  | _ => []
  end.

(** *** [scrape_all_content] *)

Record ArticleRecord := {
  title : str;
  url : str;
  content : str;
  raw_content : str;
  word_count : nat
}.

(** Lines 128-142 for one title and the reply to its request: the
    records appended to [scraped_content]. *)
Definition scrape_page (self : MediaWikiScraper) (t : str)
    (r : reply pages_dict) : list ArticleRecord :=
  match get_page_content t r with
  | Some (c :: w) =>
      let raw := c :: w in
      let clean_content := clean_wikitext (Some raw) in
      match strip clean_content with
      | [] => []
      | _ =>
          [ {| title := t;
               url := base_url self ++ py "/wiki/" ++ replace 32 95 t;
               content := clean_content;
               raw_content := raw;
               word_count := length (split clean_content) |} ]
      end
  | _ => []
  end.

(** The [for] loop of lines 126-150 over the titles with the reply each
    request got.  The checkpoint of lines 145-148 and the final save
    write [scraped_content] to files and leave it as it is. *)
Fixpoint scrape_pages (self : MediaWikiScraper)
    (fetched : list (str * reply pages_dict)) : list ArticleRecord :=
  match fetched with
  | [] => []
  | (t, r) :: rest => scrape_page self t r ++ scrape_pages self rest
  end.

(** What [json.dump] leaves in a file: the text of the whole list, which
    [json.load] reads back as the list, or the text of the list cut off
    before its first string that holds a lone surrogate. *)
Inductive dumped :=
| Whole (records : list ArticleRecord)
| Cut (records : list ArticleRecord).

(** A record whose strings the file can take. *)
Definition dumpable (r : ArticleRecord) : bool :=
  encodable (title r) && encodable (url r) && encodable (content r)
  && encodable (raw_content r).

(** [with open(path, 'w', encoding='utf-8') as f: json.dump(records, f,
    indent=2, ensure_ascii=False)], lines 146-147 and 153-154: the
    strings are written one by one, and the first one that cannot be
    encoded raises.  The path is one the file system takes. *)
Definition json_dump (path : str) (records : list ArticleRecord)
    (disk : gmap str dumped) : gmap str dumped + exn * gmap str dumped :=
  if forallb dumpable records
  then inl (<[path := Whole records]> disk)
  else inr (UnicodeEncodeError, <[path := Cut records]> disk).

Record scrape_state := {
  scraped_content : list ArticleRecord;
  disk : gmap str dumped
}.

(** The checkpoint file of lines 146 and 157. *)
Definition tmp_file (output_file : str) : str := output_file ++ py ".tmp".

(** The request for a title ends in the handler of lines 97-98, whose
    message holds the title. *)
Definition reports_error (r : reply pages_dict) : bool :=
  match r with
  | Failed => true
  | Json pages =>
      match first_revision pages with
      | inl _ => true
      | inr _ => false
      end
  end.

(** The [for] loop of lines 126-150 with its checkpoints, from the title
    of index [i] on: the state when the loop ends, or the exception that
    leaves it and the state it leaves.  The message of line 98 raises
    when the title cannot be printed, and nothing catches it. *)
Fixpoint scrape_loop (self : MediaWikiScraper) (output_file : str) (i : nat)
    (fetched : list (str * reply pages_dict)) (st : scrape_state)
  : scrape_state + exn * scrape_state :=
  match fetched with
  | [] => inl st
  | (t, r) :: rest =>
      if reports_error r && negb (encodable t)
      then inr (UnicodeEncodeError, st)
      else
        let scraped := scraped_content st ++ scrape_page self t r in
        if (i + 1) mod 100 =? 0
        then
          match json_dump (tmp_file output_file) scraped (disk st) with
          | inl disk =>
              scrape_loop self output_file (S i) rest
                {| scraped_content := scraped; disk := disk |}
          | inr (e, disk) =>
              inr (e, {| scraped_content := scraped; disk := disk |})
          end
        else
          scrape_loop self output_file (S i) rest
            {| scraped_content := scraped; disk := disk st |}
  end.

(** Lines 152-158: the final save, then the checkpoint file is removed
    if it is there. *)
Definition final_save (output_file : str) (st : scrape_state)
  : scrape_state + exn * scrape_state :=
  match json_dump output_file (scraped_content st) (disk st) with
  | inl disk =>
      inl {| scraped_content := scraped_content st;
             disk := delete (tmp_file output_file) disk |}
  | inr (e, disk) =>
      inr (e, {| scraped_content := scraped_content st; disk := disk |})
  end.

(** How a call of [scrape_all_content] ends: with the value it returns,
    [None] for the return of line 117, or with an exception; each with
    the disk it leaves. *)
Inductive scrape_outcome :=
| Returned (result : option (list ArticleRecord)) (files : gmap str dumped)
| ScrapeRaised (e : exn) (files : gmap str dumped).

(** [scrape_all_content]: the listing, then one content request per
    title; [contents i t] is the reply to the request for the [i]-th
    title [t].  [None]: the listing did not return on [script]. *)
Definition scrape_all_content (self : MediaWikiScraper)
    (script : list (reply listing))
    (contents : nat → str → reply pages_dict)
    (output_file : str) (files : gmap str dumped)
  : option scrape_outcome :=
  match get_all_page_titles script with
  | None => None
  | Some run =>
      match all_titles run with
      | [] => Some (Returned None files)
      | titles =>
          match scrape_loop self output_file 0
                  (imap (λ i t, (t, contents i t)) titles)
                  {| scraped_content := []; disk := files |} with
          | inr (e, st) => Some (ScrapeRaised e (disk st))
          | inl st =>
              match final_save output_file st with
              | inr (e, st) => Some (ScrapeRaised e (disk st))
              | inl st => Some (Returned (Some (scraped_content st)) (disk st))
              end
          end
      end
  end.

End Fetcher.

(** ** [convert_wiki.py] *)

Module Exporter.

(** The characters of the class in line 15: less-than, greater-than,
    colon, double quote, slash, backslash, bar, question mark, star. *)
Definition illegal_chars : str := [60; 62; 58; 34; 47; 92; 124; 63; 42]%N.
Definition is_illegal : char → bool := char_in illegal_chars.

Definition underscore : char := 95%N.
Definition dot : char := 46%N.

(** The value of [filename] after line 17, before the length cap. *)
Definition stripped_name (title : str) : str :=
  let filename := re_sub (Class is_illegal) [underscore] title in
  let filename := re_sub (ClassPlus isspace) [underscore] filename in
  strip_chars [dot; underscore] filename.

Definition sanitize_filename (title : str) : str :=
  let filename := stripped_name title in
  if 200 <? length filename then take 200 filename else filename.

(** An element of the array in the JSON file: an object, or any other
    value. *)
Inductive article :=
| Dict (fields : gmap str json)
| NotDict.

(** [d.get(key, default)]. *)
Definition get (d : gmap str json) (key : str) (dflt : json) : json :=
  default dflt (d !! key).

(** The f-string of lines 78-84. *)
Definition document_content (title url word_count content : str) : str :=
  py "TITLE: " ++ title ++ nl ++
  py "URL: " ++ url ++ nl ++
  py "WORD COUNT: " ++ word_count ++ nl ++
  nl ++
  py "CONTENT:" ++ nl ++
  content ++ nl.

(** The output directory, file name to text, the two counters, and the
    local variable [title], [None] while it is unbound. *)
Record state := {
  files : gmap str str;
  converted_count : nat;
  skipped_count : nat;
  title_var : option json
}.

Definition bind_title (v : json) (st : state) : state :=
  {| files := files st; converted_count := converted_count st;
     skipped_count := skipped_count st; title_var := Some v |}.

Definition skip (st : state) : state :=
  {| files := files st; converted_count := converted_count st;
     skipped_count := S (skipped_count st); title_var := title_var st |}.

(** The bytes of one character of a file name under [os.fsencode]:
    UTF-8, where a surrogate from U+DC80 to U+DCFF stands for one byte
    and no other surrogate can be encoded. *)
Definition fs_bytes (c : char) : option nat :=
  if (c <? 128)%N then Some 1
  else if (c <? 2048)%N then Some 2
  else if ((56448 <=? c) && (c <=? 56575))%N then Some 1
  else if surrogate c then None
  else if (c <? 65536)%N then Some 3
  else Some 4.

Fixpoint fsencode_length (name : str) : option nat :=
  match name with
  | [] => Some 0
  | c :: rest =>
      match fs_bytes c, fsencode_length rest with
      | Some n, Some m => Some (n + m)
      | _, _ => None
      end
  end.

(** The longest file name, in bytes. *)
Definition NAME_MAX : nat := 255.

(** [open(file_path, 'w', encoding='utf-8')], line 87, for a name without
    a slash: the exception it raises, if it raises. *)
Definition open_error (filename : str) : option exn :=
  match fsencode_length filename with
  | None => Some UnicodeEncodeError
  | Some n =>
      if existsb (N.eqb 0) filename then Some ValueError
      else if NAME_MAX <? n then Some OSError
      else None
  end.

(** Line 87 alone: the file is there and is empty. *)
Definition create (filename : str) (st : state) : state :=
  {| files := <[filename := []]> (files st);
     converted_count := converted_count st;
     skipped_count := skipped_count st; title_var := title_var st |}.

(** Lines 87-90 when nothing is raised: the file holds the text. *)
Definition write (filename text : str) (st : state) : state :=
  {| files := <[filename := text]> (files st);
     converted_count := S (converted_count st);
     skipped_count := skipped_count st; title_var := title_var st |}.

(** The body of [try], lines 63-94: the state when the body ends or
    reaches [continue], or the exception and the state it was raised
    in.  [f.write] encodes the whole text before it writes any of it. *)
Definition try_body (st : state) (a : article) : state + exn * state :=
  match a with
  | NotDict => inr (AttributeError, st)
  | Dict d =>
      let title := get d (py "title") (JStr (py "Untitled")) in
      let st := bind_title title st in
      let content := get d (py "content") (JStr []) in
      let url := get d (py "url") (JStr []) in
      let word_count := get d (py "word_count") (JInt 0) in
      match content with
      | JStr content =>
          match strip content with
          | [] => inl (skip st)
          | _ =>
              match title with
              | JStr title =>
                  let filename := sanitize_filename title ++ py ".txt" in
                  let text :=
                    document_content title (format url) (format word_count)
                      content in
                  match open_error filename with
                  | Some e => inr (e, st)
                  | None =>
                      if encodable text then inl (write filename text st)
                      else inr (UnicodeEncodeError, create filename st)
                  end
              | _ => inr (TypeError, st)
              end
          end
      | _ => inr (AttributeError, st)
      end
  end.

(** The [except] clause, lines 96-99: its message holds [title], and
    [print] raises when it cannot encode it. *)
Definition except_clause (st : state) : state + exn :=
  match title_var st with
  | Some title =>
      if encodable (format title) then inl (skip st)
      else inr UnicodeEncodeError
  | None => inr NameError
  end.

Inductive outcome :=
| Finished (st : state)
| Raised (e : exn) (st : state).

(** One iteration of the [for] loop of lines 61-99: the next state, or
    the exception that leaves the function and the state it leaves. *)
Definition iteration (st : state) (a : article) : state + exn * state :=
  match try_body st a with
  | inl st => inl st
  | inr (_, st) =>
      match except_clause st with
      | inl st => inl st
      | inr e => inr (e, st)
      end
  end.

Fixpoint convert_loop (st : state) (wiki_data : list article) : outcome :=
  match wiki_data with
  | [] => Finished st
  | a :: rest =>
      match iteration st a with
      | inl st => convert_loop st rest
      | inr (e, st) => Raised e st
      end
  end.

(** What [json.load] gave, lines 41-54. *)
Inductive wiki_file :=
| FileNotFound
| JSONDecodeError
| NotAList
| Articles (wiki_data : list article).

(** [convert_json_to_documents] on the decoded file and the entries of
    the output directory; [None] for the returns of lines 47, 50 and
    54. *)
Definition convert_json_to_documents (f : wiki_file) (dir : gmap str str)
  : option outcome :=
  match f with
  | Articles wiki_data =>
      Some (convert_loop
              {| files := dir; converted_count := 0; skipped_count := 0;
                 title_var := None |} wiki_data)
  | _ => None
  end.

(** The hand-off: a record as [json.dump] writes it and [json.load]
    reads it. *)
Definition to_article (r : Fetcher.ArticleRecord) : article :=
  Dict (<[py "title" := JStr (Fetcher.title r)]>
       (<[py "url" := JStr (Fetcher.url r)]>
       (<[py "content" := JStr (Fetcher.content r)]>
       (<[py "raw_content" := JStr (Fetcher.raw_content r)]>
       (<[py "word_count" := JInt (Z.of_nat (Fetcher.word_count r))]> ∅))))).

(** [export(records, output_dir)] of the specification. *)
Definition export (records : list Fetcher.ArticleRecord) (dir : gmap str str)
  : option outcome :=
  convert_json_to_documents (Articles (to_article <$> records)) dir.

(** *** Reading the loop

    What the body of [try] does for an article, whatever the state:
    it reaches [continue], it writes a file, or it raises, in which case
    it may have opened a file, which is left empty. *)
Inductive effect :=
| Skips
| Writes (name text : str)
| Fails (opened : option str).

Definition effect_of (a : article) : effect :=
  match a with
  | Dict d =>
      match get d (py "content") (JStr []),
            get d (py "title") (JStr (py "Untitled")) with
      | JStr content, title =>
          match strip content with
          | [] => Skips
          | _ =>
              match title with
              | JStr title =>
                  let filename := sanitize_filename title ++ py ".txt" in
                  let text :=
                    document_content title
                      (format (get d (py "url") (JStr [])))
                      (format (get d (py "word_count") (JInt 0))) content in
                  match open_error filename with
                  | Some _ => Fails None
                  | None =>
                      if encodable text then Writes filename text
                      else Fails (Some filename)
                  end
              | _ => Fails None
              end
          end
      | _, _ => Fails None
      end
  | NotDict => Fails None
  end.

(** The file that the iteration of an article leaves, name and text. *)
Definition document_of (a : article) : option (str * str) :=
  match effect_of a with
  | Writes name text => Some (name, text)
  | Fails (Some name) => Some (name, [])
  | _ => None
  end.

(** The directory after the file of an article is put into it. *)
Definition put (fs : gmap str str) (a : article) : gmap str str :=
  match document_of a with
  | Some (name, text) => <[name := text]> fs
  | None => fs
  end.

(** The iteration counts a converted document. *)
Definition converts (a : article) : bool :=
  match effect_of a with Writes _ _ => true | _ => false end.

(** The value of [title] after the iteration of an article. *)
Definition title_after (bound : option json) (a : article) : option json :=
  match a with
  | Dict d => Some (get d (py "title") (JStr (py "Untitled")))
  | NotDict => bound
  end.

(** The iteration of an article does not raise: its handler, if it
    runs, finds [title] bound and can print it. *)
Definition passes (bound : option json) (a : article) : bool :=
  match effect_of a with
  | Fails _ =>
      match title_after bound a with
      | Some title => encodable (format title)
      | None => false
      end
  | _ => true
  end.

(** The loop does not raise. *)
Fixpoint runs (bound : option json) (wiki_data : list article) : bool :=
  match wiki_data with
  | [] => true
  | a :: rest => passes bound a && runs (title_after bound a) rest
  end.

(** An object whose title, [Untitled] when missing, can be printed. *)
Definition printable_title (a : article) : Prop :=
  match a with
  | Dict d =>
      encodable (format (get d (py "title") (JStr (py "Untitled")))) = true
  | NotDict => True
  end.

Definition is_dict (a : article) : Prop :=
  match a with Dict _ => True | NotDict => False end.

(** An object whose content, [''] when missing, is a string that is empty
    once trimmed. *)
Definition blank (a : article) : bool :=
  match a with
  | Dict d =>
      match get d (py "content") (JStr []) with
      | JStr content => bool_decide (strip content = [])
      | _ => false
      end
  | NotDict => false
  end.

(** File name and text of a record. *)
Definition file_name (r : Fetcher.ArticleRecord) : str :=
  sanitize_filename (Fetcher.title r) ++ py ".txt".
Definition file_text (r : Fetcher.ArticleRecord) : str :=
  document_content (Fetcher.title r) (Fetcher.url r)
    (str_of_int (Z.of_nat (Fetcher.word_count r))) (Fetcher.content r).
Definition has_content (r : Fetcher.ArticleRecord) : bool :=
  bool_decide (strip (Fetcher.content r) ≠ []).

(** A record whose file can be written: the file system takes the name,
    and the text has no lone surrogate. *)
Definition writable (r : Fetcher.ArticleRecord) : Prop :=
  open_error (file_name r) = None
  ∧ encodable (Fetcher.title r) = true ∧ encodable (Fetcher.url r) = true
  ∧ encodable (Fetcher.content r) = true.

End Exporter.

Import Exporter.

(** ** The specification's wording, for comparison with the code *)

Module Spec.

(** Replace the character set with underscore. *)
Definition replace_illegal (title : str) : str :=
  (λ c, if is_illegal c then underscore else c) <$> title.

(** Collapse runs of whitespace to a single underscore; [in_run] tells
    that the character before was white space. *)
Fixpoint collapse_runs (p : char → bool) (u : char) (in_run : bool) (s : str)
  : str :=
  match s with
  | [] => []
  | c :: rest =>
      if p c
      then (if in_run then [] else [u]) ++ collapse_runs p u true rest
      else c :: collapse_runs p u false rest
  end.
Definition collapse_whitespace : str → str :=
  collapse_runs isspace underscore false.

(** Strip leading and trailing dots and underscores. *)
Definition strip_separators : str → str := strip_chars [dot; underscore].

(** Truncate to at most 200 characters. *)
Definition truncate : str → str := take 200.

Definition sanitize_filename (title : str) : str :=
  truncate (strip_separators (collapse_whitespace (replace_illegal title))).

(** The number of whitespace-separated tokens: the positions where a
    character that is not white space starts a run. *)
Fixpoint count_tokens_from (in_word : bool) (s : str) : nat :=
  match s with
  | [] => 0
  | c :: rest =>
      if isspace c then count_tokens_from false rest
      else (if in_word then 0 else 1) + count_tokens_from true rest
  end.
Definition count_tokens : str → nat := count_tokens_from false.

(** A string without a line break. *)
Definition single_line (s : str) : Prop := 10%N ∉ s.

(** The titles of one page of results, when every entry has one. *)
Definition page_titles (data : Fetcher.listing) : option (list str) :=
  match Fetcher.allpages data with
  | None => Some []
  | Some pages => mapM Fetcher.page_title pages
  end.

(** A reply that delivers its page of results. *)
Definition delivered (data : Fetcher.listing) : Prop :=
  is_Some (page_titles data).

(** The titles of the pages of a sequence of replies, in order. *)
Definition titles_of (pages : list Fetcher.listing) : list str :=
  concat ((λ data, default [] (page_titles data)) <$> pages).

(** A listing request that fails: the exchange raises, or an entry of the
    page has no title. *)
Definition fails (r : reply Fetcher.listing) : Prop :=
  match r with
  | Failed => True
  | Json data => page_titles data = None
  end.

(** What the caller of [get_all_page_titles] receives. *)
Definition returned (run : option Fetcher.listing_run) : option (list str) :=
  Fetcher.all_titles <$> run.


(** The record of a title and its markup, as the data model words it. *)
Definition article_record (base : str) (t raw : str) : Fetcher.ArticleRecord :=
  {| Fetcher.title := t;
     Fetcher.url :=
       base ++ py "/wiki/" ++ ((λ c, if (c =? 32)%N then 95%N else c) <$> t);
     Fetcher.content := strip raw;
     Fetcher.raw_content := raw;
     Fetcher.word_count := count_tokens (strip raw) |}.

(** The record the run produces for a title, if any. *)
Definition produced (base : str) (job : str * reply (list (str * Fetcher.page_data)))
  : option Fetcher.ArticleRecord :=
  match Fetcher.get_page_content job.1 job.2 with
  | Some raw =>
      if decide (strip raw = []) then None
      else Some (article_record base job.1 raw)
  | None => None
  end.

(** *** Reading a document

    The reader of the output format of section 6: it takes the three
    header lines, the blank line and the [CONTENT:] line apart and gives
    title, url, word count and content.  The repository has no reader;
    this one is what re-reading a written file means below. *)

Fixpoint strip_prefix (p s : str) : option str :=
  match p, s with
  | [], _ => Some s
  | c :: p, c' :: s => if (c =? c')%N then strip_prefix p s else None
  | _ :: _, [] => None
  end.

(** The text before the first line break, and the text after it. *)
Fixpoint read_line (s : str) : option (str * str) :=
  match s with
  | [] => None
  | c :: rest =>
      if (c =? 10)%N then Some ([], rest)
      else match read_line rest with
           | Some (line, rest) => Some (c :: line, rest)
           | None => None
           end
  end.

Definition int_of_str (s : str) : option Z :=
  if forallb (λ c, c <? 256)%N s
  then Z.of_int
       <$> NilZero.int_of_string (string_of_list_ascii (ascii_of_N <$> s))
  else None.

Definition drop_final_newline (s : str) : option str :=
  match reverse s with
  | 10%N :: r => Some (reverse r)
  | _ => None
  end.

Definition read_document (text : str) : option (str * str * Z * str) :=
  match strip_prefix (py "TITLE: ") text with
  | None => None
  | Some rest =>
  match read_line rest with
  | None => None
  | Some (title, rest) =>
  match strip_prefix (py "URL: ") rest with
  | None => None
  | Some rest =>
  match read_line rest with
  | None => None
  | Some (url, rest) =>
  match strip_prefix (py "WORD COUNT: ") rest with
  | None => None
  | Some rest =>
  match read_line rest with
  | None => None
  | Some (count, rest) =>
  match int_of_str count, strip_prefix (nl ++ py "CONTENT:" ++ nl) rest with
  | Some word_count, Some rest =>
      match drop_final_newline rest with
      | Some content => Some (title, url, word_count, content)
      | None => None
      end
  | _, _ => None
  end end end end end end end.

End Spec.

(** ** Predicates of the further properties *)

(** A name on which [sanitize_filename] has nothing to do. *)
Definition safe_name (t : str) : Prop :=
  Forall (λ c, is_illegal c = false ∧ isspace c = false) t
  ∧ length t ≤ 200
  ∧ (∀ c, head t = Some c → c ≠ dot ∧ c ≠ underscore)
  ∧ (∀ c, last t = Some c → c ≠ dot ∧ c ≠ underscore).

(** A character of which [sanitize_filename] keeps nothing when no other
    character surrounds it. *)
Definition vanishing (c : char) : Prop :=
  is_illegal c = true ∨ isspace c = true ∨ c = dot ∨ c = underscore.

(** ** Sample data *)

(** A title of 201 characters: 199 times [a], an underscore, [b]. *)
Definition long_title : str := replicate 199 97%N ++ py "_b".

(** The file of a name after a run, as a reader of the directory finds
    it. *)
Definition read_back (o : option outcome) (name : str) : option str :=
  match o with
  | Some (Finished st) => files st !! name
  | _ => None
  end.

Definition sample (t u c : string) (n : nat) : Fetcher.ArticleRecord :=
  {| Fetcher.title := py t; Fetcher.url := py u; Fetcher.content := py c;
     Fetcher.raw_content := py c; Fetcher.word_count := n |}.

Definition test_page : Fetcher.ArticleRecord :=
  sample "Test Page" "https://wiki.example/wiki/Test_Page" "Hello world" 2.
Definition blank_page : Fetcher.ArticleRecord :=
  sample "Empty" "https://wiki.example/wiki/Empty" "   " 0.

(** Two records with one title. *)
Definition draft_one : Fetcher.ArticleRecord :=
  sample "Draft" "https://wiki.example/wiki/Draft" "first" 1.
Definition draft_two : Fetcher.ArticleRecord :=
  sample "Draft" "https://wiki.example/wiki/Draft" "second" 1.


(** Records in the data model that the file system or the encoding
    refuses: a title with U+0000, a title of 200 two-byte characters, a
    content with the lone surrogate U+D800, a title with it. *)
Definition nul_page : Fetcher.ArticleRecord :=
  {| Fetcher.title := py "A" ++ [0%N] ++ py "B";
     Fetcher.url := py "https://wiki.example/wiki/A";
     Fetcher.content := py "text"; Fetcher.raw_content := py "text";
     Fetcher.word_count := 1 |}.
Definition long_page : Fetcher.ArticleRecord :=
  {| Fetcher.title := replicate 200 233%N;
     Fetcher.url := py "https://wiki.example/wiki/long";
     Fetcher.content := py "text"; Fetcher.raw_content := py "text";
     Fetcher.word_count := 1 |}.
Definition surrogate_title_page : Fetcher.ArticleRecord :=
  {| Fetcher.title := py "S" ++ [55296%N];
     Fetcher.url := py "https://wiki.example/wiki/S";
     Fetcher.content := py "text"; Fetcher.raw_content := py "text";
     Fetcher.word_count := 1 |}.

(** A title with a line break. *)
Definition two_line_page : Fetcher.ArticleRecord :=
  {| Fetcher.title := py "A" ++ nl ++ py "URL: B";
     Fetcher.url := py "https://wiki.example/wiki/A";
     Fetcher.content := py "text"; Fetcher.raw_content := py "text";
     Fetcher.word_count := 1 |}.

(** Two other titles with one sanitized name. *)
Definition space_page : Fetcher.ArticleRecord :=
  sample "My Page" "https://wiki.example/wiki/My_Page" "space" 1.
Definition underscore_page : Fetcher.ArticleRecord :=
  sample "My_Page" "https://wiki.example/wiki/My_Page" "underscore" 1.

(** An object whose title is a number. *)
Definition numbered : gmap str json :=
  {[ py "title" := JInt 5; py "content" := JStr (py "x") ]}.

(** An object with nothing but content. *)
Definition bare_content : gmap str json :=
  {[ py "content" := JStr (py "Hello") ]}.

(** Listing replies: two pages of a wiki, the second one the last. *)
Definition first_listing : Fetcher.listing :=
  {| Fetcher.allpages :=
       Some [ {| Fetcher.page_title := Some (py "Alpha") |};
              {| Fetcher.page_title := Some (py "Beta") |} ];
     Fetcher.apcontinue := Some (py "Gamma") |}.
Definition last_listing : Fetcher.listing :=
  {| Fetcher.allpages := Some [ {| Fetcher.page_title := Some (py "Gamma") |} ];
     Fetcher.apcontinue := None |}.

Definition visible_revision : Fetcher.page_data :=
  {| Fetcher.revisions :=
       Some [ {| Fetcher.slots_main := Some (py " Hello world ") |} ] |}.

Definition start : state :=
  {| files := ∅; converted_count := 0; skipped_count := 0;
     title_var := None |}.

(** ** Strings *)

Section strings.
Implicit Types (p : char → bool) (s : str) (c : char).

Lemma lstrip_suffix p s : lstrip p s `suffix_of` s.
Proof.
  induction s as [|c s IH]; simpl; [done|].
  destruct (p c); [by apply suffix_cons_r | done].
Qed.

Lemma head_lstrip p s c : head (lstrip p s) = Some c → p c = false.
Proof.
  induction s as [|c' s IH]; simpl; [done|].
  destruct (p c') eqn:E; [done|]. simpl. by intros [= <-].
Qed.

Lemma rstrip_prefix p s : rstrip p s `prefix_of` s.
Proof.
  unfold rstrip. destruct (lstrip_suffix p (reverse s)) as [k Hk].
  exists (reverse k). apply (f_equal reverse) in Hk.
  by rewrite reverse_involutive, reverse_app in Hk.
Qed.

Lemma last_rstrip p s c : last (rstrip p s) = Some c → p c = false.
Proof. unfold rstrip. rewrite last_reverse. apply head_lstrip. Qed.

Lemma head_prefix (l1 l2 : str) c :
  l1 `prefix_of` l2 → head l1 = Some c → head l2 = Some c.
Proof. intros [k ->]. by destruct l1. Qed.

Lemma head_strip_by p s c : head (strip_by p s) = Some c → p c = false.
Proof.
  unfold strip_by. intros H. apply (head_lstrip p s).
  by apply (head_prefix _ _ _ (rstrip_prefix p _)).
Qed.

Lemma last_strip_by p s c : last (strip_by p s) = Some c → p c = false.
Proof. apply last_rstrip. Qed.

Lemma Forall_strip_by (P : char → Prop) p s :
  Forall P s → Forall P (strip_by p s).
Proof.
  intros H. destruct (rstrip_prefix p (lstrip p s)) as [k1 Hk1].
  destruct (lstrip_suffix p s) as [k2 Hk2]. unfold strip_by.
  rewrite Hk2, Hk1, !Forall_app in H. tauto.
Qed.

Lemma length_strip_by p s : length (strip_by p s) ≤ length s.
Proof.
  unfold strip_by. etrans.
  - apply prefix_length, rstrip_prefix.
  - apply suffix_length, lstrip_suffix.
Qed.

Lemma char_in_false (chars : str) c : char_in chars c = false ↔ c ∉ chars.
Proof.
  unfold char_in. induction chars as [|x chars IH]; simpl.
  - split; [intros _; apply not_elem_of_nil | done].
  - rewrite orb_false_iff, IH, not_elem_of_cons, N.eqb_neq. done.
Qed.

(** [re.sub] of a character class is a character-wise replacement. *)
Lemma re_sub_class p (u : char) s :
  re_sub (Class p) [u] s = (λ c, if p c then u else c) <$> s.
Proof.
  unfold re_sub. induction s as [|c s IH]; [done|].
  rewrite fmap_cons. cbn [re_sub_from match_length].
  destruct (p c); simpl; by rewrite IH.
Qed.

(** [re.sub] of a class under [+] collapses each run. *)
Lemma re_sub_class_plus_runs p (u : char) s :
  re_sub_from (ClassPlus p) [u] 0 s = Spec.collapse_runs p u false s
  ∧ re_sub_from (ClassPlus p) [u] (run_length p s) s
    = Spec.collapse_runs p u true s.
Proof.
  induction s as [|c s [IH0 IH1]]; [done|].
  cbn [re_sub_from match_length run_length Spec.collapse_runs].
  destruct (p c); simpl; by rewrite ?IH0, ?IH1.
Qed.

Lemma re_sub_class_plus p (u : char) s :
  re_sub (ClassPlus p) [u] s = Spec.collapse_runs p u false s.
Proof. apply re_sub_class_plus_runs. Qed.

Lemma Forall_collapse_runs (P : char → Prop) p u b s :
  P u → Forall (λ c, p c = false → P c) s →
  Forall P (Spec.collapse_runs p u b s).
Proof.
  intros Hu Hs. revert b.
  induction Hs as [|c s Hc _ IH]; intros b; simpl; [done|].
  destruct (p c) eqn:E.
  - destruct b; simpl; [apply IH|]. constructor; [done | apply IH].
  - constructor; [by apply Hc | apply IH].
Qed.

Lemma length_collapse_runs p u b s :
  length (Spec.collapse_runs p u b s) ≤ length s.
Proof.
  revert b. induction s as [|c s IH]; intros b; simpl; [done|].
  destruct (p c); [destruct b|]; simpl.
  - specialize (IH true). lia.
  - specialize (IH true). lia.
  - specialize (IH false). lia.
Qed.

(** [len(s.split())] counts the tokens. *)
Lemma length_split_from (word : str) s :
  length (split_from word s)
  = match word with
    | [] => Spec.count_tokens_from false s
    | _ => 1 + Spec.count_tokens_from true s
    end.
Proof.
  revert word. induction s as [|c s IH]; intros word; simpl.
  - by destruct word.
  - destruct (isspace c).
    + destruct word; simpl; by rewrite IH.
    + rewrite IH. by destruct word.
Qed.

Lemma length_split s : length (split s) = Spec.count_tokens s.
Proof. apply (length_split_from []). Qed.

End strings.

Example str_of_int_examples :
  str_of_int 0 = py "0" ∧ str_of_int 42 = py "42" ∧ str_of_int (-7) = py "-7".
Proof. repeat split; reflexivity. Qed.

Example split_example :
  split (py "  Hello   world ") = [py "Hello"; py "world"].
Proof. reflexivity. Qed.

Example strip_example : strip (py "  Hello world  ") = py "Hello world".
Proof. reflexivity. Qed.

(** ** [sanitize_filename] *)

Lemma stripped_name_spec title :
  stripped_name title
  = Spec.strip_separators (Spec.collapse_whitespace (Spec.replace_illegal title)).
Proof.
  unfold stripped_name. by rewrite re_sub_class, re_sub_class_plus.
Qed.

Lemma length_cap (filename : str) :
  (if 200 <? length filename then take 200 filename else filename)
  = take 200 filename.
Proof.
  destruct (200 <? length filename) eqn:E; [done|].
  apply Nat.ltb_ge in E. by rewrite take_ge.
Qed.

(** C1. For every title, [sanitize_filename] is the function that
    replaces each character of the illegal set by an underscore, then
    collapses each run of white space to one underscore, then strips
    leading and trailing dots and underscores, then truncates to at most
    200 characters; on [My/Page:Name?] it gives [My_Page_Name]. *)
Theorem sanitize_filename_steps :
  (∀ title, Exporter.sanitize_filename title = Spec.sanitize_filename title)
  ∧ Exporter.sanitize_filename (py "My/Page:Name?") = py "My_Page_Name".
Proof.
  split; [|reflexivity].
  intros title. unfold Exporter.sanitize_filename, Spec.sanitize_filename.
  by rewrite length_cap, stripped_name_spec.
Qed.

Lemma is_illegal_underscore : is_illegal underscore = false.
Proof. reflexivity. Qed.

Lemma isspace_underscore : isspace underscore = false.
Proof. reflexivity. Qed.

Lemma stripped_name_clean title :
  Forall (λ c, is_illegal c = false ∧ isspace c = false) (stripped_name title).
Proof.
  rewrite stripped_name_spec. apply Forall_strip_by.
  apply Forall_collapse_runs.
  - split; reflexivity.
  - unfold Spec.replace_illegal. rewrite Forall_fmap. apply Forall_true.
    intros c Hc; simpl. split; [|done].
    destruct (is_illegal c) eqn:E; [reflexivity | done].
Qed.

Lemma length_stripped_name title : length (stripped_name title) ≤ length title.
Proof.
  rewrite stripped_name_spec. unfold Spec.strip_separators, strip_chars.
  etrans; [apply length_strip_by|].
  etrans; [apply length_collapse_runs|].
  unfold Spec.replace_illegal. by rewrite length_fmap.
Qed.

Lemma not_separator c :
  char_in [dot; underscore] c = false → c ≠ dot ∧ c ≠ underscore.
Proof.
  rewrite char_in_false, !not_elem_of_cons. tauto.
Qed.

(** C4, amended. For every title the result of [sanitize_filename] holds
    no character of the illegal set and no white space, has at most 200
    characters and does not begin with a dot or an underscore; when the
    name is not cut at 200 characters it does not end with one either. *)
Theorem sanitize_filename_shape title :
  let filename := sanitize_filename title in
  Forall (λ c, is_illegal c = false ∧ isspace c = false) filename
  ∧ length filename ≤ 200
  ∧ (∀ c, head filename = Some c → c ≠ dot ∧ c ≠ underscore)
  ∧ (length (stripped_name title) ≤ 200 →
     ∀ c, last filename = Some c → c ≠ dot ∧ c ≠ underscore).
Proof.
  unfold sanitize_filename. rewrite length_cap. cbv zeta.
  split_and!.
  - apply Forall_take, stripped_name_clean.
  - rewrite length_take. lia.
  - intros c Hc. apply not_separator.
    apply (head_prefix _ _ _ (prefix_take _ 200)) in Hc.
    by apply head_strip_by in Hc.
  - intros Hlen c. rewrite take_ge by done.
    intros Hc. apply not_separator. by apply last_strip_by in Hc.
Qed.

Lemma sanitize_filename_shape_witness :
  let filename := sanitize_filename (py "My/Page:Name?") in
  Forall (λ c, is_illegal c = false ∧ isspace c = false) filename
  ∧ length filename ≤ 200
  ∧ (∀ c, head filename = Some c → c ≠ dot ∧ c ≠ underscore)
  ∧ (∀ c, last filename = Some c → c ≠ dot ∧ c ≠ underscore).
Proof.
  destruct (sanitize_filename_shape (py "My/Page:Name?")) as (H1 & H2 & H3 & H4).
  split_and!; [exact H1 | exact H2 | exact H3 |].
  apply H4. vm_compute. lia.
Defined.

(** C4 as stated fails: the cut at 200 characters comes after the strip,
    and leaves the underscore that was character 200 at the end. *)
Lemma sanitize_filename_ends_with_underscore :
  last (sanitize_filename long_title) = Some underscore.
Proof. reflexivity. Qed.

(** ** The export loop *)

Section export_loop.
Implicit Types (st : state) (a : article) (l : list article)
  (fs : gmap str str) (d : gmap str json).

Lemma iteration_dict st d :
  iteration st (Dict d)
  = let title := get d (py "title") (JStr (py "Untitled")) in
    let st := bind_title title st in
    match effect_of (Dict d) with
    | Skips => inl (skip st)
    | Writes name text => inl (write name text st)
    | Fails opened =>
        let st := match opened with
                  | Some name => create name st
                  | None => st
                  end in
        if encodable (format title) then inl (skip st)
        else inr (UnicodeEncodeError, st)
    end.
Proof.
  unfold iteration, try_body, effect_of, except_clause. cbv zeta.
  cbn [bind_title title_var].
  generalize (get d (py "title") (JStr (py "Untitled"))); intros title.
  generalize (format (get d (py "url") (JStr []))); intros url.
  generalize (format (get d (py "word_count") (JInt 0))); intros word_count.
  destruct (get d (py "content") _) as [| | |content|];
    try (by simpl; destruct (encodable (format title))).
  destruct (strip content) as [|c s]; [done|].
  destruct title as [|b|z|t|text];
    try solve [done | by simpl; destruct (encodable _)].
  destruct (open_error _); [by simpl; destruct (encodable t)|].
  destruct (encodable (document_content _ _ _ _)); [done|].
  by simpl; destruct (encodable t).
Qed.

Lemma iteration_not_dict st :
  iteration st NotDict
  = match title_var st with
    | Some title =>
        if encodable (format title) then inl (skip st)
        else inr (UnicodeEncodeError, st)
    | None => inr (NameError, st)
    end.
Proof.
  unfold iteration, try_body, except_clause.
  destruct (title_var st) as [t|]; [|done]. by destruct (encodable _).
Qed.

Lemma put_Some fs a name text :
  document_of a = Some (name, text) → put fs a = <[name := text]> fs.
Proof. unfold put. by intros ->. Qed.

Lemma put_None fs a : document_of a = None → put fs a = fs.
Proof. unfold put. by intros ->. Qed.

(** One iteration that does not raise. *)
Lemma iteration_passes st a :
  passes (title_var st) a = true →
  ∃ st', iteration st a = inl st'
    ∧ files st' = put (files st) a
    ∧ converted_count st'
      = converted_count st + (if converts a then 1 else 0)
    ∧ converted_count st' + skipped_count st'
      = converted_count st + skipped_count st + 1
    ∧ title_var st' = title_after (title_var st) a.
Proof.
  unfold passes, put, document_of, converts. destruct a as [d|].
  - rewrite iteration_dict. cbv zeta. cbn [title_after].
    destruct (effect_of (Dict d)) as [|name text|[name|]]; intros Hp;
      rewrite ?Hp; eexists; (split; [done|]); simpl; split_and!; (done || lia).
  - rewrite iteration_not_dict. cbn [effect_of title_after].
    destruct (title_var st) as [t|] eqn:Et; [|done]. intros ->.
    eexists. split; [done|]. simpl. split_and!; (done || lia).
Qed.

(** One iteration that raises: it is the handler that raises, on an
    unbound title or on a title it cannot print. *)
Lemma iteration_stops st a :
  passes (title_var st) a = false →
  ∃ e st', iteration st a = inr (e, st')
    ∧ (e = NameError ∧ a = NotDict ∧ title_var st = None
       ∨ e = UnicodeEncodeError)
    ∧ files st' = put (files st) a
    ∧ converted_count st' = converted_count st
    ∧ skipped_count st' = skipped_count st.
Proof.
  unfold passes, put, document_of. destruct a as [d|].
  - rewrite iteration_dict. cbv zeta. cbn [title_after].
    destruct (effect_of (Dict d)) as [|name text|[name|]]; try done;
      intros ->; do 2 eexists; (split; [done|]); simpl;
      split_and!; (done || by right).
  - rewrite iteration_not_dict. cbn [effect_of title_after].
    destruct (title_var st) as [t|] eqn:Et.
    + intros ->. do 2 eexists. split; [done|]. split_and!; (done || by right).
    + intros _. do 2 eexists. split; [done|]. split_and!; (done || by left).
Qed.

(** The loop runs to its end exactly when [runs] says so, and then the
    files are the files of the elements put one after the other. *)
Lemma convert_loop_runs l st :
  runs (title_var st) l = true →
  ∃ st', convert_loop st l = Finished st'
    ∧ files st' = foldl put (files st) l
    ∧ converted_count st'
      = converted_count st + length (filter (λ a, converts a = true) l)
    ∧ converted_count st' + skipped_count st'
      = converted_count st + skipped_count st + length l.
Proof.
  revert st. induction l as [|a l IH]; intros st.
  { exists st. simpl. split_and!; (done || lia). }
  cbn [runs convert_loop foldl length]. intros [Hp Hr]%andb_true_iff.
  destruct (iteration_passes st a Hp) as (st1 & -> & Hf1 & Hc1 & Hs1 & Ht1).
  rewrite <-Ht1 in Hr. destruct (IH st1 Hr) as (st' & -> & Hf & Hc & Hs).
  exists st'. split; [done|]. rewrite Hf, Hf1, filter_cons.
  split_and!; [done| |lia].
  destruct (converts a); simpl; lia.
Qed.

Lemma convert_loop_finished l st st' :
  convert_loop st l = Finished st' → runs (title_var st) l = true.
Proof.
  revert st. induction l as [|a l IH]; intros st; [done|].
  cbn [runs convert_loop]. destruct (passes (title_var st) a) eqn:Hp.
  - destruct (iteration_passes st a Hp) as (st1 & -> & _ & _ & _ & Ht1).
    rewrite <-Ht1. apply IH.
  - by destruct (iteration_stops st a Hp) as (e & st1 & -> & _).
Qed.

(** An exception leaves the loop with the count of the elements done. *)
Lemma convert_loop_raised l st e st' :
  convert_loop st l = Raised e st' →
  (e = NameError ∧ title_var st = None ∨ e = UnicodeEncodeError)
  ∧ converted_count st' + skipped_count st'
    < converted_count st + skipped_count st + length l.
Proof.
  revert st. induction l as [|a l IH]; intros st; [done|].
  cbn [convert_loop length]. destruct (passes (title_var st) a) eqn:Hp.
  - destruct (iteration_passes st a Hp) as (st1 & -> & _ & _ & Hs1 & Ht1).
    intros [He Hlt]%IH. split; [|lia].
    destruct He as [[-> Hn]| ->]; [|by right]. left. split; [done|].
    rewrite Ht1 in Hn. by destruct a.
  - destruct (iteration_stops st a Hp) as (e1 & st1 & -> & He & _ & Hc & Hs).
    intros [= <- <-]. split; [|lia].
    destruct He as [(-> & _ & Hn)| ->]; [by left|by right].
Qed.

Lemma head_dicts l : Forall is_dict l → head l ≠ Some NotDict.
Proof. destruct 1 as [|[d|] l Ha _]; done. Qed.

Lemma dicts_filter (P : article → Prop) `{!∀ a, Decision (P a)} l :
  Forall is_dict l → Forall is_dict (filter P l).
Proof.
  rewrite !Forall_forall. intros Hl a [_ Ha]%list_elem_of_filter.
  by apply Hl.
Qed.

Lemma blank_effect_of a : blank a = true → effect_of a = Skips.
Proof.
  destruct a as [d|]; [|done]. unfold blank, effect_of.
  destruct (get d (py "content") _) as [| | |content|]; try done.
  by intros ->%bool_decide_eq_true.
Qed.

Lemma blank_document_of a : blank a = true → document_of a = None.
Proof. intros H. unfold document_of. by rewrite (blank_effect_of a H). Qed.

(** Blank objects leave the directory and the count of files alone. *)
Lemma foldl_put_filter_blank l fs :
  foldl put fs (filter (λ a, blank a = false) l) = foldl put fs l.
Proof.
  revert fs. induction l as [|a l IH]; intros fs; [done|].
  rewrite filter_cons.
  destruct (decide (blank a = false)) as [E|E]; cbn [foldl].
  - apply IH.
  - apply not_false_is_true, blank_document_of in E.
    rewrite (put_None _ _ E). apply IH.
Qed.

Lemma converts_filter_blank l :
  filter (λ a, converts a = true) (filter (λ a, blank a = false) l)
  = filter (λ a, converts a = true) l.
Proof.
  induction l as [|a l IH]; [done|].
  rewrite (filter_cons (λ a, blank a = false)).
  destruct (decide (blank a = false)) as [E|E].
  - by rewrite !filter_cons, IH.
  - apply not_false_is_true, blank_effect_of in E.
    rewrite IH, filter_cons_False; [done|]. unfold converts. by rewrite E.
Qed.

(** On objects only, the loop runs or not whatever is bound to [title],
    and leaving objects out does not make it raise. *)
Lemma runs_dicts l bound bound' :
  Forall is_dict l → runs bound l = runs bound' l.
Proof.
  intros Hl. revert bound bound'.
  induction Hl as [|[d|] l Ha _ IH]; intros bound bound'; [done| |done].
  cbn [runs title_after]. unfold passes. cbn [title_after]. done.
Qed.

Lemma runs_filter (P : article → Prop) `{!∀ a, Decision (P a)} l bound :
  Forall is_dict l → runs bound l = true → runs bound (filter P l) = true.
Proof.
  intros Hl. revert bound.
  induction Hl as [|[d|] l Ha Hl IH]; intros bound; [done| |done].
  rewrite filter_cons. cbn [runs]. intros [Hp Hr]%andb_true_iff.
  destruct (decide (P (Dict d))).
  - cbn [runs]. rewrite Hp. by apply IH.
  - rewrite (runs_dicts _ bound (title_after bound (Dict d)))
      by by apply dicts_filter.
    by apply IH.
Qed.

Lemma length_filter_blank l :
  length l = length (filter (λ a, blank a = false) l)
             + length (filter (λ a, blank a = true) l).
Proof.
  induction l as [|a l IH]; [done|].
  rewrite !filter_cons. destruct (blank a); simpl; lia.
Qed.

(** A name that no article of [l] writes keeps its file. *)
Lemma foldl_put_other l fs name :
  (∀ a text, a ∈ l → document_of a ≠ Some (name, text)) →
  foldl put fs l !! name = fs !! name.
Proof.
  revert fs. induction l as [|a l IH]; intros fs Hl; [done|].
  simpl. rewrite IH by (intros; apply Hl; by right).
  unfold put. destruct (document_of a) as [[n t]|] eqn:E; [|done].
  apply lookup_insert_ne. intros ->. by apply (Hl a t); [left|].
Qed.

(** The last article to write a name decides the text of the file. *)
Lemma foldl_put_last pre a post fs name text :
  document_of a = Some (name, text) →
  (∀ a' text', a' ∈ post → document_of a' ≠ Some (name, text')) →
  foldl put fs (pre ++ a :: post) !! name = Some text.
Proof.
  intros Ha Hpost. rewrite foldl_app. simpl.
  rewrite foldl_put_other by done.
  rewrite (put_Some _ _ _ _ Ha). apply lookup_insert_eq.
Qed.

Lemma dom_foldl_put l fs :
  dom (foldl put fs l) = dom fs ∪ list_to_set ((omap document_of l).*1).
Proof.
  revert fs. induction l as [|a l IH]; intros fs; simpl.
  { by rewrite (right_id_L ∅ (∪)). }
  rewrite IH. unfold put. destruct (document_of a) as [[n t]|]; simpl.
  - by rewrite dom_insert_L, (comm_L (∪) {[n]} (dom fs)), (assoc_L (∪)).
  - done.
Qed.

End export_loop.

(** ** Reading a document back

    The header determines the fields it was written from, as long as the
    title and the url have no line break; and a text of decimal digits
    and header words can always be encoded. *)

Section reading.
Implicit Types (s a x : str).

Lemma py_cons (c : ascii) (s : string) : py (String c s) = N_of_ascii c :: py s.
Proof. reflexivity. Qed.

Lemma py_inj (s1 s2 : string) : py s1 = py s2 → s1 = s2.
Proof.
  revert s2. induction s1 as [|c1 s1 IH]; intros [|c2 s2]; try done.
  rewrite !py_cons. intros [= Hc Hs]. f_equal; [|by apply IH].
  by rewrite <-(ascii_N_embedding c1), Hc, ascii_N_embedding.
Qed.

Lemma to_int_not_nil (z : Z) :
  Z.to_int z ≠ Decimal.Pos Decimal.Nil ∧ Z.to_int z ≠ Decimal.Neg Decimal.Nil.
Proof.
  destruct z as [|p|p]; simpl; split; try done.
  - intros [= H]. by apply DecimalPos.Unsigned.to_uint_nonnil in H.
  - intros [= H]. by apply DecimalPos.Unsigned.to_uint_nonnil in H.
Qed.

Lemma str_of_int_inj (z1 z2 : Z) : str_of_int z1 = str_of_int z2 → z1 = z2.
Proof.
  intros H%py_inj. apply DecimalZ.to_int_inj.
  apply (f_equal NilZero.int_of_string) in H.
  destruct (to_int_not_nil z1), (to_int_not_nil z2).
  rewrite !NilZero.isi in H by done. by injection H.
Qed.

Lemma single_line_uint (d : Decimal.uint) :
  Spec.single_line (py (NilEmpty.string_of_uint d)).
Proof.
  unfold Spec.single_line.
  induction d; cbn [NilEmpty.string_of_uint]; rewrite ?py_cons;
    [apply not_elem_of_nil|..]; apply not_elem_of_cons; done.
Qed.

Lemma single_line_str_of_int (z : Z) : Spec.single_line (str_of_int z).
Proof.
  unfold str_of_int.
  assert (∀ d, Spec.single_line (py (NilZero.string_of_uint d))) as Hu.
  { intros d. pose proof (single_line_uint d).
    destruct d; try done. unfold Spec.single_line.
    apply not_elem_of_cons. split; [done | apply not_elem_of_nil]. }
  destruct (Z.to_int z) as [d|d]; cbn [NilZero.string_of_int]; [done|].
  rewrite py_cons. apply not_elem_of_cons. split; [done|apply Hu].
Qed.

(** The first line break of a text splits it in one way. *)
Lemma first_line_inj a1 a2 x1 x2 :
  Spec.single_line a1 → Spec.single_line a2 →
  a1 ++ nl ++ x1 = a2 ++ nl ++ x2 → a1 = a2 ∧ x1 = x2.
Proof.
  unfold Spec.single_line, nl. revert a2.
  induction a1 as [|c1 a1 IH]; intros [|c2 a2] H1 H2; simpl.
  - by intros [= ->].
  - intros [= <- _]. destruct H2. by left.
  - intros [= -> _]. destruct H1. by left.
  - intros [= -> H]. apply not_elem_of_cons in H1 as [_ H1].
    apply not_elem_of_cons in H2 as [_ H2].
    destruct (IH a2 H1 H2 H) as [-> ->]. done.
Qed.

Lemma document_content_inj t1 u1 w1 c1 t2 u2 w2 c2 :
  Spec.single_line t1 → Spec.single_line u1 → Spec.single_line w1 →
  Spec.single_line t2 → Spec.single_line u2 → Spec.single_line w2 →
  document_content t1 u1 w1 c1 = document_content t2 u2 w2 c2 →
  t1 = t2 ∧ u1 = u2 ∧ w1 = w2 ∧ c1 = c2.
Proof.
  intros Ht1 Hu1 Hw1 Ht2 Hu2 Hw2. unfold document_content.
  intros H%app_inv_head. apply first_line_inj in H as [-> H]; [|done..].
  apply app_inv_head, first_line_inj in H as [-> H]; [|done..].
  apply app_inv_head, first_line_inj in H as [-> H]; [|done..].
  do 3 apply app_inv_head in H. by apply app_inv_tail in H.
Qed.

(** Two records whose titles and urls are single lines and whose
    documents are the same text agree on title, url, word count and
    content. *)
Lemma file_text_inj (r1 r2 : Fetcher.ArticleRecord) :
  Spec.single_line (Fetcher.title r1) → Spec.single_line (Fetcher.url r1) →
  Spec.single_line (Fetcher.title r2) → Spec.single_line (Fetcher.url r2) →
  file_text r1 = file_text r2 →
  Fetcher.title r1 = Fetcher.title r2 ∧ Fetcher.url r1 = Fetcher.url r2
  ∧ Fetcher.word_count r1 = Fetcher.word_count r2
  ∧ Fetcher.content r1 = Fetcher.content r2.
Proof.
  intros Ht1 Hu1 Ht2 Hu2 H. unfold file_text in H.
  apply document_content_inj in H as (? & ? & Hw & ?);
    [|done || apply single_line_str_of_int..].
  split_and!; [done..| |done]. by apply str_of_int_inj, Nat2Z.inj in Hw.
Qed.

Lemma encodable_app s1 s2 :
  encodable (s1 ++ s2) = encodable s1 && encodable s2.
Proof. apply forallb_app. Qed.

Lemma encodable_uint (d : Decimal.uint) :
  encodable (py (NilEmpty.string_of_uint d)) = true.
Proof. induction d; cbn [NilEmpty.string_of_uint]; rewrite ?py_cons; done. Qed.

Lemma encodable_str_of_int (z : Z) : encodable (str_of_int z) = true.
Proof.
  unfold str_of_int.
  assert (∀ d, encodable (py (NilZero.string_of_uint d)) = true) as Hu.
  { intros d. pose proof (encodable_uint d). by destruct d. }
  destruct (Z.to_int z) as [d|d]; cbn [NilZero.string_of_int]; [done|].
  rewrite py_cons. simpl. apply Hu.
Qed.

Lemma encodable_document t u w c :
  encodable (document_content t u w c)
  = encodable t && encodable u && encodable w && encodable c.
Proof.
  unfold document_content. rewrite !encodable_app.
  change (encodable nl) with true. change (encodable (py "TITLE: ")) with true.
  change (encodable (py "URL: ")) with true.
  change (encodable (py "WORD COUNT: ")) with true.
  change (encodable (py "CONTENT:")) with true.
  cbn [andb]. by rewrite !andb_true_r, !andb_assoc.
Qed.

(** *** The reader *)

Lemma strip_prefix_app p s : Spec.strip_prefix p (p ++ s) = Some s.
Proof. induction p as [|c p IH]; [done|]. simpl. by rewrite N.eqb_refl. Qed.

Lemma read_line_app a x :
  Spec.single_line a → Spec.read_line (a ++ nl ++ x) = Some (a, x).
Proof.
  unfold Spec.single_line. induction a as [|c a IH]; intros Ha; [done|].
  apply not_elem_of_cons in Ha as [Hc Ha]. cbn [app Spec.read_line].
  destruct (N.eqb_spec c 10) as [->|_]; [done|]. by rewrite IH.
Qed.

Lemma int_of_py (s : string) :
  forallb (λ c, c <? 256)%N (py s) = true
  ∧ string_of_list_ascii (ascii_of_N <$> py s) = s.
Proof.
  induction s as [|c s [IH1 IH2]]; [done|]. rewrite py_cons, fmap_cons.
  cbn [forallb string_of_list_ascii]. rewrite IH1, IH2, ascii_N_embedding.
  split; [|done]. rewrite andb_true_r. apply N.ltb_lt, N_ascii_bounded.
Qed.

Lemma int_of_str_of_int (z : Z) : Spec.int_of_str (str_of_int z) = Some z.
Proof.
  unfold Spec.int_of_str, str_of_int.
  destruct (int_of_py (NilZero.string_of_int (Z.to_int z))) as [-> ->].
  destruct (to_int_not_nil z). rewrite NilZero.isi by done. simpl.
  by rewrite DecimalZ.of_to.
Qed.

Lemma drop_final_newline_app c : Spec.drop_final_newline (c ++ nl) = Some c.
Proof.
  unfold Spec.drop_final_newline, nl.
  rewrite reverse_app, reverse_singleton. simpl. by rewrite reverse_involutive.
Qed.

(** The reader gives back the fields of a document whose title and url
    are single lines. *)
Lemma read_document_content t u (z : Z) c :
  Spec.single_line t → Spec.single_line u →
  Spec.read_document (document_content t u (str_of_int z) c)
  = Some (t, u, z, c).
Proof.
  intros Ht Hu. unfold Spec.read_document, document_content.
  rewrite strip_prefix_app, read_line_app by done.
  rewrite strip_prefix_app, read_line_app by done.
  rewrite strip_prefix_app, read_line_app by apply single_line_str_of_int.
  rewrite int_of_str_of_int.
  change (nl ++ py "CONTENT:" ++ nl ++ c ++ nl)
    with ((nl ++ py "CONTENT:" ++ nl) ++ c ++ nl).
  by rewrite strip_prefix_app, drop_final_newline_app.
Qed.

End reading.

(** ** Records handed over by the fetcher *)

Section records.
Implicit Types (r : Fetcher.ArticleRecord) (records : list Fetcher.ArticleRecord)
  (dir : gmap str str).

Lemma effect_of_to_article r :
  effect_of (to_article r)
  = if has_content r
    then match open_error (file_name r) with
         | Some _ => Fails None
         | None =>
             if encodable (file_text r)
             then Writes (file_name r) (file_text r)
             else Fails (Some (file_name r))
         end
    else Skips.
Proof.
  destruct r as [t u c raw n].
  unfold has_content, file_name, file_text, effect_of, to_article.
  change (get _ (py "content") (JStr [])) with (JStr c).
  change (get _ (py "title") (JStr (py "Untitled"))) with (JStr t).
  change (get _ (py "url") (JStr [])) with (JStr u).
  change (get _ (py "word_count") (JInt 0)) with (JInt (Z.of_nat n)).
  cbn [Fetcher.title Fetcher.url Fetcher.content Fetcher.word_count format].
  case_bool_decide as E; destruct (strip c); done.
Qed.

Lemma encodable_file_text r :
  encodable (file_text r)
  = encodable (Fetcher.title r) && encodable (Fetcher.url r)
    && encodable (Fetcher.content r).
Proof.
  unfold file_text. rewrite encodable_document, encodable_str_of_int.
  by rewrite andb_true_r.
Qed.

Lemma writable_effect r :
  has_content r = true → writable r →
  effect_of (to_article r) = Writes (file_name r) (file_text r).
Proof.
  intros Hc (Ho & Ht & Hu & Hx). rewrite effect_of_to_article, Hc, Ho.
  by rewrite encodable_file_text, Ht, Hu, Hx.
Qed.

(** The file a record leaves has the name of the record. *)
Lemma document_of_record r name text :
  document_of (to_article r) = Some (name, text) →
  has_content r = true ∧ name = file_name r.
Proof.
  unfold document_of. rewrite effect_of_to_article.
  destruct (has_content r); [|done]. destruct (open_error _); [done|].
  destruct (encodable _); by intros [= <- _].
Qed.

Lemma blank_to_article r : blank (to_article r) = negb (has_content r).
Proof.
  destruct r as [t u c raw n]. unfold blank, has_content, to_article.
  change (get _ (py "content") (JStr [])) with (JStr c).
  cbn [Fetcher.content]. by destruct (strip c).
Qed.

Lemma dicts_to_article records : Forall is_dict (to_article <$> records).
Proof. rewrite Forall_fmap. by apply Forall_true. Qed.

Lemma length_filter_has_content records :
  length records
  = length (filter (λ r, has_content r = true) records)
    + length (filter (λ r, has_content r = false) records).
Proof.
  induction records as [|r records IH]; [done|].
  rewrite !filter_cons. destruct (has_content r); simpl; lia.
Qed.

(** Records whose files can be written: the loop meets no exception. *)
Lemma runs_writable records bound :
  Forall writable (filter (λ r, has_content r = true) records) →
  runs bound (to_article <$> records) = true.
Proof.
  revert bound. induction records as [|r records IH]; intros bound; [done|].
  rewrite filter_cons, fmap_cons. cbn [runs]. intros H.
  unfold passes. destruct (has_content r) eqn:Hc.
  - rewrite decide_True in H by done. apply Forall_cons in H as [Hw H].
    rewrite (writable_effect r Hc Hw). by apply IH.
  - rewrite decide_False in H by done.
    rewrite effect_of_to_article, Hc. by apply IH.
Qed.


Lemma converts_to_article r :
  writable r → converts (to_article r) = has_content r.
Proof.
  intros Hw. unfold converts. destruct (has_content r) eqn:Hc.
  - by rewrite (writable_effect r Hc Hw).
  - by rewrite effect_of_to_article, Hc.
Qed.

Lemma converts_blank r :
  has_content r = false → converts (to_article r) = false.
Proof. intros Hc. unfold converts. by rewrite effect_of_to_article, Hc. Qed.

Lemma converts_writable records :
  Forall writable (filter (λ r, has_content r = true) records) →
  length (filter (λ a, converts a = true) (to_article <$> records))
  = length (filter (λ r, has_content r = true) records).
Proof.
  induction records as [|r records IH]; [done|].
  rewrite fmap_cons, !filter_cons.
  destruct (has_content r) eqn:Hc.
  - rewrite (decide_True (P := true = true)) by done.
    intros [Hw H]%Forall_cons.
    rewrite decide_True by (by rewrite converts_to_article, Hc).
    simpl. by rewrite IH.
  - rewrite (decide_False (P := false = true)) by done.
    rewrite decide_False by (by rewrite converts_blank).
    apply IH.
Qed.

Lemma title_after_to_article r bound :
  title_after bound (to_article r) = Some (JStr (Fetcher.title r)).
Proof. by destruct r. Qed.

(** Records whose titles can be printed where the handler may run: the
    loop meets no exception that leaves it. *)
Lemma runs_printable records bound :
  Forall (λ r, encodable (Fetcher.title r) = true)
    (filter (λ r, has_content r = true) records) →
  runs bound (to_article <$> records) = true.
Proof.
  revert bound. induction records as [|r records IH]; intros bound; [done|].
  rewrite filter_cons, fmap_cons. cbn [runs]. intros H.
  rewrite title_after_to_article.
  unfold passes. rewrite title_after_to_article, effect_of_to_article.
  destruct (has_content r) eqn:Hc.
  - rewrite decide_True in H by done. apply Forall_cons in H as [Hw H].
    rewrite IH by done. cbn [format]. rewrite Hw.
    destruct (open_error _); [done|]. by destruct (encodable (file_text r)).
  - rewrite decide_False in H by done. by apply IH.
Qed.

Lemma writable_printable records :
  Forall writable (filter (λ r, has_content r = true) records) →
  Forall (λ r, encodable (Fetcher.title r) = true)
    (filter (λ r, has_content r = true) records).
Proof. intros H. eapply Forall_impl; [exact H|]. by intros r (_ & Ht & _). Qed.

(** What a run of the loop on records that does not raise leaves. *)
Lemma export_runs records dir :
  runs None (to_article <$> records) = true →
  ∃ st, export records dir = Some (Finished st)
    ∧ files st = foldl put dir (to_article <$> records)
    ∧ converted_count st
      = length (filter (λ a, converts a = true) (to_article <$> records))
    ∧ converted_count st + skipped_count st = length records.
Proof.
  intros Hr. unfold export, convert_json_to_documents.
  edestruct convert_loop_runs as (st & -> & Hf & Hc & Hs); [exact Hr|].
  exists st. rewrite length_fmap in Hs. simpl in *. by split_and!.
Qed.

(** What [export] leaves when the files of the records with content can
    be written: it runs to its end. *)
Lemma export_writable records dir :
  Forall writable (filter (λ r, has_content r = true) records) →
  ∃ st, export records dir = Some (Finished st)
    ∧ files st = foldl put dir (to_article <$> records)
    ∧ converted_count st
      = length (filter (λ r, has_content r = true) records)
    ∧ skipped_count st
      = length (filter (λ r, has_content r = false) records).
Proof.
  intros Hw.
  destruct (export_runs records dir) as (st & He & Hf & Hc & Hs);
    [by apply runs_writable|].
  exists st. rewrite converts_writable in Hc by done.
  pose proof (length_filter_has_content records).
  split_and!; [done|done|done|lia].
Qed.

(** What a run of [export] that ends has done. *)
Lemma export_finished records dir st :
  export records dir = Some (Finished st) →
  files st = foldl put dir (to_article <$> records).
Proof.
  unfold export, convert_json_to_documents. intros [= H].
  pose proof (convert_loop_finished _ _ _ H) as Hr.
  destruct (convert_loop_runs _ _ Hr) as (st' & H' & Hf & _).
  rewrite H in H'. by injection H' as <-.
Qed.

(** The file of a record with content that can be written holds its text
    when no later record with content takes the same name. *)
Lemma export_last_writer pre r post dir :
  has_content r = true → writable r →
  (∀ r', r' ∈ post → has_content r' = true → file_name r' ≠ file_name r) →
  foldl put dir (to_article <$> pre ++ r :: post) !! file_name r
  = Some (file_text r).
Proof.
  intros Hr Hw Hpost. rewrite fmap_app, fmap_cons. apply foldl_put_last.
  - unfold document_of. by rewrite (writable_effect r Hr Hw).
  - intros a' text' (r' & -> & Hr')%list_elem_of_fmap Hd.
    apply document_of_record in Hd as [Hc Hn]. by apply (Hpost r').
Qed.

End records.

(** ** The exporter's properties *)

(** C3. The code departs from the claim. An element of the array that is
    not an object, met before any object, stops the function: the handler
    of line 96 reads [title], to which nothing was bound, and its
    [NameError] leaves the function; nothing is counted and no count is
    reported, whatever follows in the array.  A record whose title holds
    the lone surrogate U+D800 stops it too: the file cannot be opened,
    and the handler cannot print the title. *)
Theorem export_aborts_on_non_object :
  (∀ (wiki_data : list article) (dir : gmap str str),
     convert_json_to_documents (Articles (NotDict :: wiki_data)) dir
     = Some (Raised NameError
               {| files := dir; converted_count := 0; skipped_count := 0;
                  title_var := None |}))
  ∧ (∀ (records : list Fetcher.ArticleRecord) (dir : gmap str str),
     export (surrogate_title_page :: records) dir
     = Some (Raised UnicodeEncodeError
               {| files := dir; converted_count := 0; skipped_count := 0;
                  title_var := Some (JStr (py "S" ++ [55296%N])) |})).
Proof. split; reflexivity. Qed.

(** C10, amended. For every object of the array: when the title is
    missing or a string, the content is a string that is not empty once
    trimmed, the file system takes the file name and the text can be
    encoded, the object is converted and nothing is skipped; a missing
    title is written as [Untitled], a missing url as the empty string and
    a missing word count as 0, in the file name and in the header.  The
    object is skipped, and no file is written, when its content is
    missing or empty once trimmed; it is skipped as well, its title being
    printable, when the content is not a string, when the content is
    there and the title is not a string, and when the file cannot be
    opened. *)
Theorem missing_fields_defaults (d : gmap str json) (st : state) :
  let title := default (JStr (py "Untitled")) (d !! py "title") in
  let url := match d !! py "url" with Some v => format v | None => [] end in
  let word_count :=
    match d !! py "word_count" with Some v => format v | None => py "0" end in
  let skipped st' :=
    iteration st (Dict d) = inl st' ∧ files st' = files st
    ∧ converted_count st' = converted_count st
    ∧ skipped_count st' = S (skipped_count st) in
  (∀ t content,
     title = JStr t → d !! py "content" = Some (JStr content) →
     strip content ≠ [] →
     let name := sanitize_filename t ++ py ".txt" in
     let text :=
       py "TITLE: " ++ t ++ nl ++ py "URL: " ++ url ++ nl ++
       py "WORD COUNT: " ++ word_count ++ nl ++ nl ++
       py "CONTENT:" ++ nl ++ content ++ nl in
     open_error name = None → encodable text = true →
     ∃ st', iteration st (Dict d) = inl st'
       ∧ files st' = <[name := text]> (files st)
       ∧ converted_count st' = S (converted_count st)
       ∧ skipped_count st' = skipped_count st)
  ∧ (d !! py "content" = None
     ∨ (∃ content, d !! py "content" = Some (JStr content)
                   ∧ strip content = []) →
     ∃ st', skipped st')
  ∧ (encodable (format title) = true →
     match d !! py "content", title with
     | Some (JStr content), JStr t =>
         strip content ≠ []
         ∧ open_error (sanitize_filename t ++ py ".txt") ≠ None
     | Some (JStr content), _ => strip content ≠ []
     | Some _, _ => True
     | None, _ => False
     end →
     ∃ st', skipped st').
Proof.
  cbv zeta. rewrite iteration_dict. unfold effect_of, get. cbv zeta.
  split_and!.
  - intros t content -> -> Hc Ho He. cbn [default from_option id].
    destruct (strip content) eqn:Es; [done|]. rewrite Ho.
    assert (format (default (JInt 0) (d !! py "word_count"))
            = match d !! py "word_count" with
              | Some v => format v
              | None => py "0"
              end) as -> by by destruct (d !! py "word_count").
    assert (format (default (JStr []) (d !! py "url"))
            = match d !! py "url" with Some v => format v | None => [] end)
      as -> by by destruct (d !! py "url").
    unfold document_content. rewrite He. by eexists.
  - intros [->|(content & -> & Hc)]; cbn [default from_option id].
    + by eexists.
    + rewrite Hc. by eexists.
  - intros Hp H. rewrite Hp.
    destruct (d !! py "content") as [[| | |content|]|]; cbn [default from_option id];
      try done; try (by eexists).
    destruct (default (JStr (py "Untitled")) (d !! py "title"))
      as [| | |t|];
      try (destruct (strip content); [done|by eexists]).
    destruct H as [Hc Ho]. destruct (strip content); [done|].
    destruct (open_error _); [by eexists|done].
Qed.

Lemma missing_fields_defaults_witness :
  (∃ st', iteration start (Dict bare_content) = inl st'
     ∧ files st'
       = <[py "Untitled.txt" :=
             py "TITLE: Untitled" ++ nl ++ py "URL: " ++ nl ++
             py "WORD COUNT: 0" ++ nl ++ nl ++ py "CONTENT:" ++ nl ++
             py "Hello" ++ nl]> ∅
     ∧ converted_count st' = 1 ∧ skipped_count st' = 0)
  ∧ (∃ st', iteration start (Dict ∅) = inl st' ∧ files st' = ∅
       ∧ converted_count st' = 0 ∧ skipped_count st' = 1)
  ∧ (∃ st', iteration start (Dict numbered) = inl st' ∧ files st' = ∅
       ∧ converted_count st' = 0 ∧ skipped_count st' = 1).
Proof.
  split_and!.
  - refine (proj1 (missing_fields_defaults bare_content start)
              (py "Untitled") (py "Hello") _ _ _ _ _);
      [reflexivity|reflexivity|discriminate|reflexivity|reflexivity].
  - refine (proj1 (proj2 (missing_fields_defaults ∅ start)) _).
    by left.
  - refine (proj2 (proj2 (missing_fields_defaults numbered start)) _ _);
      [reflexivity|]. vm_compute. discriminate.
Defined.

(** C10 as stated fails: objects whose content is there and not blank
    are skipped, one for its title, a number, one, a record of the data
    model, for the U+0000 in its title. *)
Lemma skipped_with_content :
  numbered !! py "content" = Some (JStr (py "x")) ∧ strip (py "x") ≠ []
  ∧ iteration start (Dict numbered)
    = inl {| files := ∅; converted_count := 0; skipped_count := 1;
             title_var := Some (JInt 5) |}
  ∧ has_content nul_page = true
  ∧ iteration start (to_article nul_page)
    = inl {| files := ∅; converted_count := 0; skipped_count := 1;
             title_var := Some (JStr (py "A" ++ [0%N] ++ py "B")) |}.
Proof. split_and!; [reflexivity|discriminate|reflexivity..]. Qed.

(** C2, amended. For every list of records in which the titles of the
    records with content can be printed, the export runs to its end;
    and then each record with content whose file can be written, whose
    title and url are single lines and whose file name no later record
    with content takes is read back from its file: the reader of the
    header format gives its title, url, word count and content. *)
Theorem export_round_trip (records : list Fetcher.ArticleRecord)
    (dir : gmap str str) :
  Forall (λ r, encodable (Fetcher.title r) = true)
    (filter (λ r, has_content r = true) records) →
  ∃ st, export records dir = Some (Finished st)
    ∧ ∀ pre r post,
        records = pre ++ r :: post →
        has_content r = true → writable r →
        Spec.single_line (Fetcher.title r) →
        Spec.single_line (Fetcher.url r) →
        (∀ r', r' ∈ post → has_content r' = true →
               file_name r' ≠ file_name r) →
        ∃ text,
          files st !! (sanitize_filename (Fetcher.title r) ++ py ".txt")
          = Some text
          ∧ Spec.read_document text
            = Some (Fetcher.title r, Fetcher.url r,
                    Z.of_nat (Fetcher.word_count r), Fetcher.content r).
Proof.
  intros Hp.
  destruct (export_runs records dir (runs_printable _ _ Hp))
    as (st & He & Hf & _).
  exists st. split; [done|]. intros pre r post -> Hc Hw Ht Hu Hlast.
  exists (file_text r). split.
  - rewrite Hf. by apply export_last_writer.
  - by apply read_document_content.
Qed.

Lemma export_round_trip_witness :
  ∃ text,
    read_back (export [blank_page; test_page] ∅) (py "Test_Page.txt")
    = Some text
    ∧ Spec.read_document text
      = Some (py "Test Page", py "https://wiki.example/wiki/Test_Page", 2%Z,
              py "Hello world").
Proof.
  assert (Forall (λ r, encodable (Fetcher.title r) = true)
            (filter (λ r, has_content r = true) [blank_page; test_page]))
    as Hp by (by repeat constructor).
  destruct (export_round_trip [blank_page; test_page] ∅ Hp)
    as (st & He & Hall).
  destruct (Hall [blank_page] test_page [] eq_refl eq_refl) as (text & Hf & Hr).
  - by split_and!.
  - by apply char_in_false.
  - by apply char_in_false.
  - intros r' Hr'. by apply elem_of_nil in Hr'.
  - exists text. rewrite He. by split.
Defined.

(** C2 as stated fails, on records with distinct titles: two titles with
    one sanitized name share a file, which holds the later record; a
    record whose title holds U+0000 leaves no file; a title with a line
    break is not read back: the reader takes its second line for the url
    and finds no word count after it. *)
Lemma export_not_read_back :
  (Fetcher.title space_page ≠ Fetcher.title underscore_page
   ∧ has_content space_page = true
   ∧ read_back (export [space_page; underscore_page] ∅) (file_name space_page)
     = Some (file_text underscore_page)
   ∧ Spec.read_document (file_text underscore_page)
     = Some (py "My_Page", py "https://wiki.example/wiki/My_Page", 1%Z,
             py "underscore"))
  ∧ (has_content nul_page = true
     ∧ export [nul_page] ∅
       = Some (Finished
                 {| files := ∅; converted_count := 0; skipped_count := 1;
                    title_var := Some (JStr (py "A" ++ [0%N] ++ py "B")) |}))
  ∧ (has_content two_line_page = true
     ∧ read_back (export [two_line_page] ∅) (file_name two_line_page)
       = Some (file_text two_line_page)
     ∧ Spec.read_document (file_text two_line_page) = None).
Proof. split_and!; try reflexivity. discriminate. Qed.




(** ** The fetcher's properties *)

Section listing.
Import Fetcher.
Implicit Types (data : listing) (pages : list listing)
  (rest : list (reply listing)) (titles : list str).

Lemma extend_titles_page_titles titles data :
  extend_titles titles data
  = match Spec.page_titles data with
    | Some new => inr (titles ++ new)
    | None => inl KeyError
    end.
Proof.
  unfold extend_titles, Spec.page_titles.
  destruct (allpages data) as [ps|]; [done|]. by rewrite app_nil_r.
Qed.

Lemma titles_of_cons data new pages :
  Spec.page_titles data = Some new →
  Spec.titles_of (data :: pages) = new ++ Spec.titles_of pages.
Proof. unfold Spec.titles_of. rewrite fmap_cons. by intros ->. Qed.

(** The loop on replies that deliver their pages and carry a token,
    up to the first reply that delivers its page without a token. *)
Lemma listing_loop_complete pages data rest titles token sent :
  Forall (λ d, Spec.delivered d ∧ is_Some (apcontinue d)) pages →
  Spec.delivered data → apcontinue data = None →
  listing_loop ((Json <$> pages) ++ Json data :: rest) titles token sent
  = Some {| all_titles := titles ++ Spec.titles_of (pages ++ [data]);
            requests := sent ++ apcontinue_param token
                          :: (apcontinue_param ∘ apcontinue <$> pages);
            unread := rest |}.
Proof.
  intros Hpages [new Hnew] Hlast. revert titles token sent.
  induction Hpages as [|d pages [[ts Hts] [tok Htok]] _ IH];
    intros titles token sent.
  - cbn [fmap list_fmap app listing_loop].
    rewrite extend_titles_page_titles, Hnew, Hlast.
    by rewrite (titles_of_cons _ new), app_nil_r.
  - rewrite fmap_cons. cbn [app listing_loop].
    rewrite extend_titles_page_titles, Hts, Htok, IH.
    rewrite (titles_of_cons _ ts) by done.
    rewrite fmap_cons. cbn [compose]. rewrite Htok.
    by rewrite <-!app_assoc.
Qed.

(** The loop on replies that deliver their pages and carry a token,
    up to the first request that fails. *)
Lemma listing_loop_partial pages r rest titles token sent :
  Forall (λ d, Spec.delivered d ∧ is_Some (apcontinue d)) pages →
  Spec.fails r →
  listing_loop ((Json <$> pages) ++ r :: rest) titles token sent
  = Some {| all_titles := titles ++ Spec.titles_of pages;
            requests := sent ++ apcontinue_param token
                          :: (apcontinue_param ∘ apcontinue <$> pages);
            unread := rest |}.
Proof.
  intros Hpages Hr. revert titles token sent.
  induction Hpages as [|d pages [[ts Hts] [tok Htok]] _ IH];
    intros titles token sent.
  - cbn [fmap list_fmap app listing_loop]. rewrite app_nil_r.
    destruct r as [|data]; [done|]. simpl in Hr.
    by rewrite extend_titles_page_titles, Hr.
  - rewrite fmap_cons. cbn [app listing_loop].
    rewrite extend_titles_page_titles, Hts, Htok, IH.
    rewrite (titles_of_cons _ ts) by done.
    rewrite fmap_cons. cbn [compose]. rewrite Htok.
    by rewrite <-!app_assoc.
Qed.

Lemma apcontinue_param_token (token : str) :
  token ≠ [] → apcontinue_param (Some token) = Some token.
Proof. by destruct token. Qed.

Lemma page_titles_whole titles :
  Spec.page_titles
    {| allpages := Some ((λ t, {| page_title := Some t |}) <$> titles);
       apcontinue := None |}
  = Some titles.
Proof.
  unfold Spec.page_titles. cbn [allpages]. apply mapM_Some.
  induction titles; constructor; done.
Qed.

End listing.

(** C5. For every sequence of replies that each deliver their page, all
    but the last with a continuation token and the last without one,
    [get_all_page_titles] returns: the titles are those of the pages in
    the order of the replies, each page once; the first request has no
    token and each later one carries the token of the reply before it
    (as it is, when it is not the empty string); the replies after the
    one without a token are not read. *)
Theorem get_all_page_titles_complete (pages : list Fetcher.listing)
    (data : Fetcher.listing) (rest : list (reply Fetcher.listing)) :
  Forall (λ d, Spec.delivered d ∧ is_Some (Fetcher.apcontinue d)) pages →
  Spec.delivered data → Fetcher.apcontinue data = None →
  ∃ run,
    Fetcher.get_all_page_titles ((Json <$> pages) ++ Json data :: rest)
    = Some run
    ∧ Fetcher.all_titles run = Spec.titles_of (pages ++ [data])
    ∧ Fetcher.unread run = rest
    ∧ Fetcher.requests run
      = None :: (Fetcher.apcontinue_param ∘ Fetcher.apcontinue <$> pages)
    ∧ (Forall (λ d, Fetcher.apcontinue d ≠ Some []) pages →
       Fetcher.requests run = None :: (Fetcher.apcontinue <$> pages)).
Proof.
  intros Hpages Hdata Hlast. unfold Fetcher.get_all_page_titles.
  rewrite listing_loop_complete by done. eexists. split; [done|].
  cbn [Fetcher.all_titles Fetcher.unread Fetcher.requests app].
  split_and!; [done..|].
  intros Hne. f_equal. apply list_fmap_ext. intros i d Hd. cbn [compose].
  rewrite Forall_forall in Hpages, Hne.
  apply list_elem_of_lookup_2 in Hd.
  destruct (Hpages d Hd) as [_ [tok Htok]]. rewrite Htok.
  apply apcontinue_param_token. intros ->. by apply (Hne d Hd).
Qed.

Lemma get_all_page_titles_complete_witness :
  ∃ run,
    Fetcher.get_all_page_titles
      ((Json <$> [first_listing]) ++ Json last_listing :: [])
    = Some run
    ∧ Fetcher.all_titles run = Spec.titles_of ([first_listing] ++ [last_listing])
    ∧ Fetcher.unread run = []
    ∧ Fetcher.requests run
      = None :: (Fetcher.apcontinue_param ∘ Fetcher.apcontinue
                 <$> [first_listing])
    ∧ (Forall (λ d, Fetcher.apcontinue d ≠ Some []) [first_listing] →
       Fetcher.requests run = None :: (Fetcher.apcontinue <$> [first_listing])).
Proof.
  apply (get_all_page_titles_complete [first_listing] last_listing []).
  - repeat constructor; eexists; reflexivity.
  - eexists; reflexivity.
  - reflexivity.
Defined.

(** C6. When a listing request fails after replies that delivered their
    pages, [get_all_page_titles] stops there, without reading another
    reply, and returns the titles of the pages delivered before; what it
    returns is a list of titles that a run without any failure returns as
    well. *)
Theorem get_all_page_titles_partial (pages : list Fetcher.listing)
    (r : reply Fetcher.listing) (rest : list (reply Fetcher.listing)) :
  Forall (λ d, Spec.delivered d ∧ is_Some (Fetcher.apcontinue d)) pages →
  Spec.fails r →
  ∃ run,
    Fetcher.get_all_page_titles ((Json <$> pages) ++ r :: rest) = Some run
    ∧ Fetcher.all_titles run = Spec.titles_of pages
    ∧ Fetcher.unread run = rest
    ∧ length (Fetcher.requests run) = S (length pages)
    ∧ ∃ whole,
        Spec.delivered whole ∧ Fetcher.apcontinue whole = None
        ∧ Spec.returned (Fetcher.get_all_page_titles [Json whole])
          = Spec.returned
              (Fetcher.get_all_page_titles ((Json <$> pages) ++ r :: rest)).
Proof.
  intros Hpages Hr. unfold Fetcher.get_all_page_titles.
  rewrite listing_loop_partial by done. eexists. split; [done|].
  cbn [Fetcher.all_titles Fetcher.unread Fetcher.requests app length].
  split_and!; [done|done|by rewrite length_fmap|].
  exists {| Fetcher.allpages :=
              Some ((λ t, {| Fetcher.page_title := Some t |})
                    <$> Spec.titles_of pages);
            Fetcher.apcontinue := None |}.
  split_and!; [by eexists; apply page_titles_whole|done|].
  cbn [Fetcher.listing_loop]. rewrite extend_titles_page_titles.
  by rewrite page_titles_whole.
Qed.

Lemma get_all_page_titles_partial_witness :
  ∃ run,
    Fetcher.get_all_page_titles
      ((Json <$> [first_listing]) ++ Failed :: [Json last_listing])
    = Some run
    ∧ Fetcher.all_titles run = Spec.titles_of [first_listing]
    ∧ Fetcher.unread run = [Json last_listing]
    ∧ length (Fetcher.requests run) = S (length [first_listing])
    ∧ ∃ whole,
        Spec.delivered whole ∧ Fetcher.apcontinue whole = None
        ∧ Spec.returned (Fetcher.get_all_page_titles [Json whole])
          = Spec.returned
              (Fetcher.get_all_page_titles
                 ((Json <$> [first_listing]) ++ Failed :: [Json last_listing])).
Proof.
  apply (get_all_page_titles_partial [first_listing] Failed [Json last_listing]).
  - repeat constructor; eexists; reflexivity.
  - exact I.
Defined.

Section content.
Import Fetcher.
Implicit Types (pages : list (str * page_data)) (s raw t : str).


Lemma lstrip_id (p : char → bool) s :
  (∀ c, head s = Some c → p c = false) → lstrip p s = s.
Proof. destruct s as [|c s]; [done|]. simpl. by intros ->. Qed.

Lemma rstrip_id (p : char → bool) s :
  (∀ c, last s = Some c → p c = false) → rstrip p s = s.
Proof.
  intros H. unfold rstrip. rewrite lstrip_id, reverse_involutive; [done|].
  intros c. rewrite head_reverse. apply H.
Qed.

Lemma strip_by_idemp (p : char → bool) s :
  strip_by p (strip_by p s) = strip_by p s.
Proof.
  unfold strip_by at 1.
  rewrite lstrip_id by (intros c; apply head_strip_by).
  apply rstrip_id. intros c. apply last_strip_by.
Qed.

Lemma scrape_page_produced (self : MediaWikiScraper) t
    (r : reply (list (str * page_data))) :
  scrape_page self t r = option_list (Spec.produced (base_url self) (t, r)).
Proof.
  unfold scrape_page, Spec.produced. cbn [fst snd].
  destruct (get_page_content t r) as [[|c w]|]; [done| |done].
  cbn [clean_wikitext]. unfold strip at 1. rewrite strip_by_idemp.
  fold strip. destruct (decide (strip (c :: w) = [])) as [->|E]; [done|].
  destruct (strip (c :: w)) eqn:Es; [done|]. rewrite <-Es. cbn [option_list].
  unfold Spec.article_record. by rewrite length_split.
Qed.

Lemma scrape_pages_produced (self : MediaWikiScraper)
    (fetched : list (str * reply (list (str * page_data)))) :
  scrape_pages self fetched = omap (Spec.produced (base_url self)) fetched.
Proof.
  induction fetched as [|[t r] fetched IH]; [done|].
  cbn [scrape_pages omap list_omap]. rewrite scrape_page_produced, IH.
  by destruct (Spec.produced _ _).
Qed.

End content.




(** C8. For every scraper and every list of titles with the reply each
    one got, the run produces, in order, one record for each title whose
    fetched markup is not empty once trimmed, and none for the others;
    the record has the title, the url made of the base url, [/wiki/] and
    the title with each space replaced by an underscore, the trimmed
    markup as content, the markup as fetched as raw content, and the
    number of whitespace-separated tokens of the content as word
    count. *)
Theorem scrape_pages_records (self : Fetcher.MediaWikiScraper)
    (fetched : list (str * reply (list (str * Fetcher.page_data)))) :
  Fetcher.scrape_pages self fetched
  = omap (λ job,
      match Fetcher.get_page_content job.1 job.2 with
      | Some raw =>
          if decide (strip raw = []) then None
          else Some
            {| Fetcher.title := job.1;
               Fetcher.url :=
                 Fetcher.base_url self ++ py "/wiki/"
                 ++ ((λ c, if (c =? 32)%N then 95%N else c) <$> job.1);
               Fetcher.content := strip raw;
               Fetcher.raw_content := raw;
               Fetcher.word_count := Spec.count_tokens (strip raw) |}
      | None => None
      end) fetched.
Proof. apply scrape_pages_produced. Qed.

(** * Further properties of the code *)

(** ** [sanitize_filename], further *)

Section sanitize_more.
Implicit Types (p : char → bool) (s t : str) (c u : char).

Lemma separator_false c :
  c ≠ dot ∧ c ≠ underscore → char_in [dot; underscore] c = false.
Proof.
  intros [H1 H2]. apply char_in_false. rewrite !not_elem_of_cons.
  split_and!; [done|done|apply not_elem_of_nil].
Qed.

Lemma collapse_runs_id p u s :
  Forall (λ c, p c = false) s → Spec.collapse_runs p u false s = s.
Proof. induction 1 as [|c s Hc _ IH]; simpl; [done|]. by rewrite Hc, IH. Qed.

Lemma replace_illegal_id s :
  Forall (λ c, is_illegal c = false) s → Spec.replace_illegal s = s.
Proof.
  unfold Spec.replace_illegal.
  induction 1 as [|c s Hc _ IH]; [done|]. rewrite fmap_cons, Hc. by f_equal.
Qed.

Lemma strip_by_id p s :
  (∀ c, head s = Some c → p c = false) →
  (∀ c, last s = Some c → p c = false) → strip_by p s = s.
Proof. intros Hh Hl. unfold strip_by. by rewrite lstrip_id, rstrip_id. Qed.

Lemma stripped_name_safe t : safe_name t → stripped_name t = t.
Proof.
  intros (Hc & _ & Hh & Hl). rewrite stripped_name_spec.
  rewrite replace_illegal_id by (eapply Forall_impl; [done|]; by intros c []).
  unfold Spec.collapse_whitespace.
  rewrite collapse_runs_id by (eapply Forall_impl; [done|]; by intros c []).
  apply strip_by_id; intros c Hc'; apply separator_false; auto.
Qed.

Lemma sanitize_safe t : safe_name t → sanitize_filename t = t.
Proof.
  intros Ht. unfold sanitize_filename.
  rewrite length_cap, stripped_name_safe by done.
  apply take_ge. by destruct Ht as (_ & ? & _).
Qed.

(** The name is safe when the cut at 200 characters takes nothing. *)
Lemma sanitize_uncut_safe t :
  length (stripped_name t) ≤ 200 → safe_name (sanitize_filename t).
Proof.
  intros Hlen. unfold sanitize_filename. rewrite length_cap, take_ge by done.
  split_and!; [apply stripped_name_clean|done|..].
  - intros c Hc. apply not_separator.
    unfold stripped_name, strip_chars in Hc. by apply head_strip_by in Hc.
  - intros c Hc. apply not_separator.
    unfold stripped_name, strip_chars in Hc. by apply last_strip_by in Hc.
Qed.

Lemma length_sanitize_filename t : length (sanitize_filename t) ≤ 200.
Proof. unfold sanitize_filename. rewrite length_cap, length_take. lia. Qed.

Lemma lstrip_nil p s : lstrip p s = [] ↔ Forall (λ c, p c = true) s.
Proof.
  induction s as [|c s IH]; simpl; [by split|].
  destruct (p c) eqn:E.
  - rewrite IH. split; [by constructor|by inversion 1].
  - split; [done|]. inversion 1; congruence.
Qed.

Lemma strip_by_nil p s : strip_by p s = [] ↔ Forall (λ c, p c = true) s.
Proof.
  unfold strip_by, rstrip. split.
  - intros H. apply (f_equal reverse) in H.
    rewrite reverse_involutive, reverse_nil in H.
    apply lstrip_nil in H. rewrite Forall_reverse in H.
    destruct (lstrip p s) as [|c s'] eqn:E; [by apply lstrip_nil|].
    apply Forall_cons in H as [Hc _].
    assert (p c = false); [|congruence].
    apply (head_lstrip p s). by rewrite E.
  - intros H. apply lstrip_nil in H. by rewrite H.
Qed.

Lemma Forall_collapse_runs_iff p u b (P : char → Prop) s :
  P u →
  Forall P (Spec.collapse_runs p u b s)
  ↔ Forall (λ c, p c = true ∨ P c) s.
Proof.
  intros Hu. revert b. induction s as [|c s IH]; intros b; simpl; [done|].
  destruct (p c) eqn:E.
  - rewrite Forall_app, IH, Forall_cons. split.
    + intros [_ H]. split; [by left|done].
    + intros [_ H]. split; [|done]. destruct b; by repeat constructor.
  - rewrite !Forall_cons, IH. split; intros [H1 H2]; (split; [|done]).
    + by right.
    + destruct H1; [congruence | done].
Qed.

End sanitize_more.

(** X1. The names that [sanitize_filename] leaves as they are are the
    safe names: no illegal character, no white space, at most 200
    characters, no dot or underscore at either end. *)
Theorem sanitize_filename_fixed_points (t : str) :
  sanitize_filename t = t ↔ safe_name t.
Proof.
  split; [|apply sanitize_safe].
  intros H. rewrite <-H. apply sanitize_uncut_safe.
  etrans; [apply length_stripped_name|].
  rewrite <-H. apply length_sanitize_filename.
Qed.

(** X2. Sanitizing a sanitized name changes nothing when the first pass
    cut nothing off; in every case a third pass changes nothing. *)
Theorem sanitize_filename_stable (t : str) :
  (length (stripped_name t) ≤ 200 →
   sanitize_filename (sanitize_filename t) = sanitize_filename t)
  ∧ sanitize_filename (sanitize_filename (sanitize_filename t))
    = sanitize_filename (sanitize_filename t).
Proof.
  split.
  - intros H. by apply sanitize_safe, sanitize_uncut_safe.
  - apply sanitize_safe, sanitize_uncut_safe.
    etrans; [apply length_stripped_name | apply length_sanitize_filename].
Qed.

Lemma sanitize_filename_stable_witness :
  sanitize_filename (sanitize_filename (py "My/Page:Name?"))
  = sanitize_filename (py "My/Page:Name?").
Proof.
  refine (proj1 (sanitize_filename_stable (py "My/Page:Name?")) _).
  vm_compute. lia.
Defined.

(** X3. The sanitized name is empty exactly for the titles made of
    nothing but illegal characters, white space, dots and underscores;
    all of them go to the file [.txt]. *)
Theorem sanitize_filename_empty (t : str) :
  sanitize_filename t = [] ↔ Forall vanishing t.
Proof.
  unfold sanitize_filename. rewrite length_cap, stripped_name_spec.
  unfold Spec.strip_separators, strip_chars, Spec.collapse_whitespace.
  set (x := strip_by _ _). assert (take 200 x = [] ↔ x = []) as ->.
  { destruct x; [done|]. by split. }
  unfold x. rewrite strip_by_nil, Forall_collapse_runs_iff by done.
  unfold Spec.replace_illegal. rewrite Forall_fmap.
  apply Forall_iff. intros c. unfold vanishing, compose.
  destruct (is_illegal c) eqn:Ei.
  - split; [by left|]. intros _. by right.
  - destruct (isspace c) eqn:Es; [by split; [right; left|left]|].
    split.
    + intros [?|H]; [done|]. right; right.
      destruct (decide (c = dot)) as [|Hd]; [by left|].
      destruct (decide (c = underscore)) as [|Hu]; [by right|].
      by rewrite separator_false in H.
    + intros [?|[?|[->| ->]]]; try done; by right.
Qed.

(** ** The export loop, further *)

Section export_more.
Implicit Types (st : state) (a : article) (l : list article)
  (fs dir : gmap str str).

(** The files after the loop are the files it writes laid over the
    files that were there. *)
Lemma foldl_put_union l fs : foldl put fs l = foldl put ∅ l ∪ fs.
Proof.
  revert fs. induction l as [|a l IH]; intros fs; cbn [foldl].
  { symmetry. apply (left_id _ _). }
  rewrite (IH (put fs a)), (IH (put ∅ a)), <-(assoc _). f_equal.
  unfold put. destruct (document_of a) as [[n t]|].
  - by rewrite insert_empty, insert_union_singleton_l.
  - symmetry. apply (left_id _ _).
Qed.

Lemma foldl_put_twice l fs : foldl put (foldl put fs l) l = foldl put fs l.
Proof.
  rewrite (foldl_put_union l (foldl put fs l)), (foldl_put_union l fs).
  rewrite (assoc _). f_equal. apply (idemp _).
Qed.

Lemma foldl_put_list_to_map l fs :
  foldl put fs l = list_to_map (reverse (omap document_of l)) ∪ fs.
Proof.
  revert fs. induction l as [|a l IH]; intros fs; cbn [foldl omap list_omap].
  { symmetry. apply (left_id _ _). }
  rewrite IH. unfold put. destruct (document_of a) as [[n t]|]; [|done].
  rewrite reverse_cons, list_to_map_app, <-(assoc _). f_equal.
  simpl. by rewrite insert_empty, insert_union_singleton_l.
Qed.

Lemma size_foldl_put l fs : size (foldl put fs l) ≤ size fs + length l.
Proof.
  revert fs. induction l as [|a l IH]; intros fs; cbn [foldl length].
  { lia. }
  etrans; [apply IH|]. unfold put.
  destruct (document_of a) as [[n t]|]; [|lia].
  rewrite map_size_insert. destruct (fs !! n); simpl; lia.
Qed.

Lemma convert_not_dict_first l dir :
  convert_json_to_documents (Articles (NotDict :: l)) dir
  = Some (Raised NameError
            {| files := dir; converted_count := 0; skipped_count := 0;
               title_var := None |}).
Proof. reflexivity. Qed.

(** What a run that ends has done. *)
Lemma convert_finished l dir st :
  convert_json_to_documents (Articles l) dir = Some (Finished st) →
  runs None l = true
  ∧ files st = foldl put dir l
  ∧ converted_count st = length (filter (λ a, converts a = true) l)
  ∧ converted_count st + skipped_count st = length l.
Proof.
  unfold convert_json_to_documents. intros [= H].
  pose proof (convert_loop_finished _ _ _ H) as Hr. split; [done|].
  destruct (convert_loop_runs _ _ Hr) as (st' & H' & Hf & Hc & Hs).
  rewrite H in H'. injection H' as <-. by simpl in *.
Qed.

Lemma convert_runs l dir :
  runs None l = true →
  ∃ st, convert_json_to_documents (Articles l) dir = Some (Finished st).
Proof.
  intros Hr. unfold convert_json_to_documents.
  edestruct convert_loop_runs as (st & -> & _); [exact Hr|]. by exists st.
Qed.

(** With every title printable the loop raises only for want of a
    title. *)
Lemma runs_bound l v :
  encodable (format v) = true → Forall printable_title l →
  runs (Some v) l = true.
Proof.
  revert v. induction l as [|a l IH]; intros v Hv; [done|].
  intros [Ha Hl]%Forall_cons. cbn [runs]. apply andb_true_iff. split.
  - unfold passes. destruct (effect_of a); [done|done|].
    destruct a as [d|]; simpl; [exact Ha|exact Hv].
  - destruct a as [d|]; simpl; [by apply IH|by apply IH].
Qed.

Lemma runs_printable_titles l :
  head l ≠ Some NotDict → Forall printable_title l → runs None l = true.
Proof.
  destruct l as [|[d|] l]; [done| |done]. intros _ [Ha Hl]%Forall_cons.
  cbn [runs]. apply andb_true_iff. split.
  - unfold passes. destruct (effect_of _); [done|done|]. exact Ha.
  - by apply runs_bound.
Qed.

(** [NameError] leaves the loop only at a first element that is not an
    object. *)
Lemma convert_loop_name_error l st st' :
  convert_loop st l = Raised NameError st' →
  title_var st = None ∧ head l = Some NotDict.
Proof.
  destruct l as [|a l]; [done|]. cbn [convert_loop].
  destruct (passes (title_var st) a) eqn:Hp.
  - destruct (iteration_passes st a Hp) as (st1 & -> & _ & _ & _ & Ht1).
    intros [[[_ Hn]|?] _]%convert_loop_raised; [|done].
    rewrite Ht1 in Hn. destruct a as [d|]; [done|]. simpl in Hn.
    unfold passes in Hp. simpl in Hp. by rewrite Hn in Hp.
  - destruct (iteration_stops st a Hp) as (e1 & st1 & -> & He & _).
    intros [= -> _]. by destruct He as [(_ & -> & Hn)|?].
Qed.

Lemma sanitize_filename_clean title :
  Forall (λ c, is_illegal c = false ∧ isspace c = false)
    (sanitize_filename title).
Proof.
  unfold sanitize_filename. rewrite length_cap.
  apply Forall_take, stripped_name_clean.
Qed.

(** A file that an element leaves has the sanitized title of the element
    as its name. *)
Lemma document_of_name a name text :
  document_of a = Some (name, text) →
  ∃ d title,
    a = Dict d ∧ get d (py "title") (JStr (py "Untitled")) = JStr title
    ∧ name = sanitize_filename title ++ py ".txt".
Proof.
  destruct a as [d|]; [|done]. unfold document_of, effect_of.
  destruct (get d (py "content") _) as [| | |content|]; try done.
  destruct (get d (py "title") _) as [| | |title|] eqn:Et;
    try (by destruct (strip content)).
  destruct (strip content); [done|]. intros H. exists d, title.
  split_and!; [done..|].
  destruct (open_error _); [done|]. destruct (encodable _); by injection H.
Qed.

(** The names of the files that records leave are among the names of the
    records with content, in their order. *)
Lemma document_names_sublist (records : list Fetcher.ArticleRecord) :
  (omap document_of (to_article <$> records)).*1
  `sublist_of` file_name <$> filter (λ r, has_content r = true) records.
Proof.
  induction records as [|r records IH]; [done|].
  rewrite fmap_cons, filter_cons. cbn [omap list_omap].
  destruct (document_of (to_article r)) as [[name text]|] eqn:Ed.
  - apply document_of_record in Ed as [Hc ->].
    rewrite decide_True by done. rewrite !fmap_cons. by apply sublist_skip.
  - destruct (decide (has_content r = true)); [|done].
    rewrite fmap_cons. by apply sublist_cons.
Qed.

End export_more.

(** X4. The export raises [NameError] exactly when the first element of
    the array is not an object, and then before any file is written.
    When the first element is an object and every title of the array can
    be printed, it runs to the end, elements that are not objects
    included, and converted plus skipped is the length of the array.  The
    one other exception that leaves it is [UnicodeEncodeError], from a
    title that cannot be printed, before every element is counted. *)
Theorem convert_raises_iff (wiki_data : list article) (dir : gmap str str) :
  (head wiki_data = Some NotDict →
   convert_json_to_documents (Articles wiki_data) dir
   = Some (Raised NameError
             {| files := dir; converted_count := 0; skipped_count := 0;
                title_var := None |}))
  ∧ (head wiki_data ≠ Some NotDict → Forall printable_title wiki_data →
     ∃ st,
       convert_json_to_documents (Articles wiki_data) dir = Some (Finished st)
       ∧ converted_count st + skipped_count st = length wiki_data)
  ∧ (∀ e st,
       head wiki_data ≠ Some NotDict →
       convert_json_to_documents (Articles wiki_data) dir = Some (Raised e st) →
       e = UnicodeEncodeError ∧ ¬ Forall printable_title wiki_data
       ∧ converted_count st + skipped_count st < length wiki_data).
Proof.
  split_and!.
  - destruct wiki_data as [|[d|] l]; [done..|]. intros _.
    apply convert_not_dict_first.
  - intros Hhd Hp.
    destruct (convert_runs wiki_data dir (runs_printable_titles _ Hhd Hp))
      as (st & H). exists st. split; [done|].
    by apply convert_finished in H as (_ & _ & _ & Hs).
  - intros e st Hhd H. split_and!.
    + unfold convert_json_to_documents in H. injection H as H.
      pose proof (convert_loop_raised _ _ _ _ H) as [[[-> _]| ->] _]; [|done].
      by apply convert_loop_name_error in H as [_ Hn].
    + intros Hp.
      destruct (convert_runs wiki_data dir (runs_printable_titles _ Hhd Hp))
        as (st' & H'). by rewrite H' in H.
    + unfold convert_json_to_documents in H. injection H as H.
      apply convert_loop_raised in H as [_ Hlt]. simpl in Hlt. lia.
Qed.

Lemma convert_raises_iff_witness :
  convert_json_to_documents (Articles [NotDict; to_article test_page]) ∅
  = Some (Raised NameError
            {| files := ∅; converted_count := 0; skipped_count := 0;
               title_var := None |})
  ∧ (∃ st,
      convert_json_to_documents (Articles [to_article test_page; NotDict]) ∅
      = Some (Finished st)
      ∧ converted_count st + skipped_count st
        = length [to_article test_page; NotDict])
  ∧ ¬ Forall printable_title
        [to_article test_page; to_article surrogate_title_page].
Proof.
  split_and!.
  - by apply (convert_raises_iff [NotDict; to_article test_page] ∅).
  - apply (convert_raises_iff [to_article test_page; NotDict] ∅); [done|].
    by repeat constructor.
  - refine (proj1 (proj2 (proj2 (proj2 (convert_raises_iff
              [to_article test_page; to_article surrogate_title_page] ∅))
              UnicodeEncodeError
              {| files := {[ py "Test_Page.txt" := file_text test_page ]};
                 converted_count := 1; skipped_count := 0;
                 title_var := Some (JStr (py "S" ++ [55296%N])) |} _ _)));
      [done|reflexivity].
Defined.

(** X5. An object whose content is not a string, or whose title is not a
    string while its content is a string that is not blank, writes no
    file; when its title can be printed, the exception is caught and the
    skipped count goes up by one; when it cannot, [UnicodeEncodeError]
    leaves the loop with the counts as they were. *)
Theorem ill_typed_object_skipped (d : gmap str json) (st : state) :
  let title := get d (py "title") (JStr (py "Untitled")) in
  (∀ s, get d (py "content") (JStr []) ≠ JStr s)
  ∨ ((∀ s, title ≠ JStr s)
     ∧ ∃ s, get d (py "content") (JStr []) = JStr s ∧ strip s ≠ []) →
  if encodable (format title)
  then ∃ st', iteration st (Dict d) = inl st'
         ∧ files st' = files st
         ∧ converted_count st' = converted_count st
         ∧ skipped_count st' = S (skipped_count st)
  else ∃ st', iteration st (Dict d) = inr (UnicodeEncodeError, st')
         ∧ files st' = files st
         ∧ converted_count st' = converted_count st
         ∧ skipped_count st' = skipped_count st.
Proof.
  intros title H. rewrite iteration_dict. cbv zeta. fold title.
  assert (effect_of (Dict d) = Fails None) as ->.
  { unfold effect_of. fold title.
    destruct H as [H|[H (s & -> & Hs)]].
    - destruct (get d (py "content") _) as [| | |content|]; try done.
      by destruct (H content).
    - destruct (strip s); [done|].
      destruct title as [| | |t|]; try done. by destruct (H t). }
  destruct (encodable (format title)); by eexists.
Qed.

Lemma ill_typed_object_skipped_witness :
  (∃ st', iteration start (Dict {[ py "content" := JInt 5 ]}) = inl st'
     ∧ files st' = files start
     ∧ converted_count st' = converted_count start
     ∧ skipped_count st' = S (skipped_count start))
  ∧ (∃ st', iteration start (Dict numbered) = inl st'
       ∧ files st' = files start
       ∧ converted_count st' = converted_count start
       ∧ skipped_count st' = S (skipped_count start)).
Proof.
  split.
  - refine (ill_typed_object_skipped {[ py "content" := JInt 5 ]} start _).
    left. intros s. vm_compute. discriminate.
  - refine (ill_typed_object_skipped numbered start _).
    right. split; [intros s; vm_compute; discriminate|].
    exists (py "x"). split; [reflexivity|]. vm_compute. discriminate.
Defined.

(** X6. Exporting the same array again into the directory the first run
    left changes no file, and the counts are the same. *)
Theorem export_twice (wiki_data : list article) (dir : gmap str str)
    (st : state) :
  convert_json_to_documents (Articles wiki_data) dir = Some (Finished st) →
  ∃ st',
    convert_json_to_documents (Articles wiki_data) (files st)
    = Some (Finished st')
    ∧ files st' = files st
    ∧ converted_count st' = converted_count st
    ∧ skipped_count st' = skipped_count st.
Proof.
  intros H. pose proof (convert_finished _ _ _ H) as (Hr & Hf & Hc & Hs).
  destruct (convert_runs wiki_data (files st) Hr) as (st' & H').
  exists st'. split; [done|].
  pose proof (convert_finished _ _ _ H') as (_ & Hf' & Hc' & Hs').
  split_and!; [|lia|lia]. by rewrite Hf', Hf, foldl_put_twice.
Qed.

Lemma export_twice_witness :
  ∃ st',
    convert_json_to_documents (Articles [to_article test_page])
      {[ py "Test_Page.txt" := file_text test_page ]}
    = Some (Finished st')
    ∧ files st' = {[ py "Test_Page.txt" := file_text test_page ]}
    ∧ converted_count st' = 1
    ∧ skipped_count st' = 0.
Proof.
  refine (export_twice [to_article test_page] ∅
            {| files := {[ py "Test_Page.txt" := file_text test_page ]};
               converted_count := 1; skipped_count := 0;
               title_var := Some (JStr (py "Test Page")) |} _).
  reflexivity.
Defined.

(** X7. A run that ends removes no file, leaves every file alone whose
    name is not the sanitized title, followed by [.txt], of an object of
    the array, and adds at most one file for each element of the array. *)
Theorem export_keeps_other_files (wiki_data : list article)
    (dir : gmap str str) (st : state) :
  convert_json_to_documents (Articles wiki_data) dir = Some (Finished st) →
  dom dir ⊆ dom (files st)
  ∧ (∀ name,
       (∀ d title,
          Dict d ∈ wiki_data →
          get d (py "title") (JStr (py "Untitled")) = JStr title →
          name ≠ sanitize_filename title ++ py ".txt") →
       files st !! name = dir !! name)
  ∧ size (files st) ≤ size dir + length wiki_data.
Proof.
  intros H. pose proof (convert_finished _ _ _ H) as (_ & Hf & _ & _).
  rewrite Hf. split_and!.
  - rewrite dom_foldl_put. apply union_subseteq_l.
  - intros name Hname. apply foldl_put_other.
    intros a text Ha (d & title & -> & Ht & ->)%document_of_name.
    by apply (Hname d title).
  - apply size_foldl_put.
Qed.

Lemma export_keeps_other_files_witness :
  ∃ st,
    export [test_page] {[ py "notes.txt" := py "keep" ]} = Some (Finished st)
    ∧ dom ({[ py "notes.txt" := py "keep" ]} : gmap str str) ⊆ dom (files st)
    ∧ (∀ name,
         (∀ d title,
            Dict d ∈ to_article <$> [test_page] →
            get d (py "title") (JStr (py "Untitled")) = JStr title →
            name ≠ sanitize_filename title ++ py ".txt") →
         files st !! name
         = ({[ py "notes.txt" := py "keep" ]} : gmap str str) !! name)
    ∧ size (files st)
      ≤ size ({[ py "notes.txt" := py "keep" ]} : gmap str str)
        + length (to_article <$> [test_page]).
Proof.
  eexists. split; [reflexivity|].
  apply (export_keeps_other_files (to_article <$> [test_page])
           {[ py "notes.txt" := py "keep" ]}).
  reflexivity.
Defined.

(** X8. When the records with content have distinct file names, the
    order of the records does not matter for a run that ends: every
    reordering of the list ends as well, with the same files and the same
    counts.  The run ends when the titles of the records with content
    can be printed. *)
Theorem export_order_irrelevant (records records' : list Fetcher.ArticleRecord)
    (dir : gmap str str) :
  records ≡ₚ records' →
  NoDup (file_name <$> filter (λ r, has_content r = true) records) →
  (Forall (λ r, encodable (Fetcher.title r) = true)
     (filter (λ r, has_content r = true) records) →
   ∃ st, export records dir = Some (Finished st))
  ∧ (∀ st,
       export records dir = Some (Finished st) →
       ∃ st',
         export records' dir = Some (Finished st')
         ∧ files st = files st'
         ∧ converted_count st = converted_count st'
         ∧ skipped_count st = skipped_count st').
Proof.
  intros Hp Hnd. split.
  { intros Ht.
    destruct (export_runs records dir (runs_printable _ _ Ht)) as (st & H & _).
    by exists st. }
  intros st H. apply convert_finished in H as (Hr & Hf & Hc & Hs).
  assert (runs None (to_article <$> records') = true) as Hr'.
  { clear -Hp Hr. revert Hr. generalize (None : option json).
    induction Hp as [|r l l' _ IH|r1 r2 l|l1 l2 l3 _ IH1 _ IH2]; intros bound.
    - done.
    - rewrite !fmap_cons. cbn [runs]. intros [H1 H2]%andb_true_iff.
      apply andb_true_iff. split; [done|]. by apply IH.
    - rewrite !fmap_cons. cbn [runs]. intros [H1 H]%andb_true_iff.
      apply andb_true_iff in H as [H2 H3].
      rewrite (runs_dicts _ _ bound) in H3 by apply dicts_to_article.
      rewrite (runs_dicts _ _ bound) by apply dicts_to_article.
      unfold passes in *. rewrite !title_after_to_article in *.
      by rewrite H2, H1, H3.
    - intros H. by apply IH2, IH1. }
  destruct (export_runs records' dir Hr') as (st' & H' & Hf' & Hc' & Hs').
  exists st'. split; [done|].
  assert (converted_count st = converted_count st') as Hcc.
  { rewrite Hc, Hc'. by rewrite Hp. }
  rewrite length_fmap in Hs. rewrite (Permutation_length Hp) in Hs.
  split_and!; [|done|lia].
  rewrite Hf, Hf', !foldl_put_list_to_map. f_equal.
  apply list_to_map_proper.
  - rewrite fmap_reverse, reverse_Permutation.
    eapply sublist_NoDup; [done|apply document_names_sublist].
  - by rewrite !reverse_Permutation, Hp.
Qed.

Lemma export_order_irrelevant_witness :
  (∃ st, export [test_page; draft_one] ∅ = Some (Finished st))
  ∧ ∃ st',
      export [draft_one; test_page] ∅ = Some (Finished st')
      ∧ {[ py "Draft.txt" := file_text draft_one;
           py "Test_Page.txt" := file_text test_page ]} = files st'
      ∧ 2 = converted_count st'
      ∧ 0 = skipped_count st'.
Proof.
  assert (NoDup (file_name <$> filter (λ r, has_content r = true)
                   [test_page; draft_one])) as Hnd.
  { vm_compute. apply NoDup_cons. split; [|apply NoDup_singleton].
    intros H%list_elem_of_singleton. discriminate H. }
  destruct (export_order_irrelevant [test_page; draft_one]
              [draft_one; test_page] ∅ (perm_swap _ _ _) Hnd) as [H1 H2].
  split.
  - apply H1. by repeat constructor.
  - refine (H2 {| files := {[ py "Draft.txt" := file_text draft_one;
                             py "Test_Page.txt" := file_text test_page ]};
                  converted_count := 2; skipped_count := 0;
                  title_var := Some (JStr (py "Draft")) |} _).
    reflexivity.
Defined.

(** X9. Every file that a run adds to the directory has a sanitized title
    followed by [.txt] as its name: at most 204 characters, without a
    slash, a backslash or white space. *)
Theorem export_file_names (wiki_data : list article) (dir : gmap str str)
    (st : state) (name : str) :
  convert_json_to_documents (Articles wiki_data) dir = Some (Finished st) →
  name ∈ dom (files st) → name ∉ dom dir →
  (∃ title, name = sanitize_filename title ++ py ".txt")
  ∧ length name ≤ 204
  ∧ (47%N ∉ name) ∧ (92%N ∉ name)
  ∧ Forall (λ c, isspace c = false) name.
Proof.
  intros H Hin Hout. pose proof (convert_finished _ _ _ H) as (_ & Hf & _).
  rewrite Hf, dom_foldl_put, elem_of_union in Hin.
  destruct Hin as [?|Hin]; [done|].
  apply elem_of_list_to_set, list_elem_of_fmap in Hin as ([n t] & -> & Hin).
  apply list_elem_of_omap in Hin as (a & _ & Ha).
  apply document_of_name in Ha as (d & title & _ & _ & ->). simpl.
  pose proof (sanitize_filename_clean title) as Hc.
  pose proof (length_sanitize_filename title) as Hl.
  split_and!.
  - by exists title.
  - rewrite length_app. simpl. lia.
  - rewrite elem_of_app. intros [Hn|Hn].
    + rewrite Forall_forall in Hc. by destruct (Hc _ Hn).
    + exact (proj1 (char_in_false (py ".txt") 47) eq_refl Hn).
  - rewrite elem_of_app. intros [Hn|Hn].
    + rewrite Forall_forall in Hc. by destruct (Hc _ Hn).
    + exact (proj1 (char_in_false (py ".txt") 92) eq_refl Hn).
  - apply Forall_app. split; [|by repeat constructor].
    eapply Forall_impl; [done|]. by intros c [].
Qed.

Lemma export_file_names_witness :
  (∃ title, py "Test_Page.txt" = sanitize_filename title ++ py ".txt")
  ∧ length (py "Test_Page.txt") ≤ 204
  ∧ (47%N ∉ py "Test_Page.txt") ∧ (92%N ∉ py "Test_Page.txt")
  ∧ Forall (λ c, isspace c = false) (py "Test_Page.txt").
Proof.
  eapply (export_file_names (to_article <$> [test_page]) ∅ _
            (py "Test_Page.txt")).
  - reflexivity.
  - apply elem_of_dom. eexists. vm_compute. reflexivity.
  - apply not_elem_of_dom. reflexivity.
Defined.

(** X21. For every array of objects on which the export runs to its
    end: the objects whose content is empty once trimmed are left out of
    the export (without them the run ends too, with the same files and
    the same count of converted documents), each of them is counted as
    skipped, and converted plus skipped is the length of the array. *)
Theorem blank_objects_left_out (wiki_data : list article)
    (dir : gmap str str) (st : state) :
  Forall is_dict wiki_data →
  convert_json_to_documents (Articles wiki_data) dir = Some (Finished st) →
  ∃ st',
    convert_json_to_documents
      (Articles (filter (λ a, blank a = false) wiki_data)) dir
    = Some (Finished st')
    ∧ files st = files st'
    ∧ converted_count st = converted_count st'
    ∧ skipped_count st
      = skipped_count st' + length (filter (λ a, blank a = true) wiki_data)
    ∧ converted_count st + skipped_count st = length wiki_data.
Proof.
  intros Hd H. apply convert_finished in H as (Hr & Hf & Hc & Hs).
  destruct (convert_runs (filter (λ a, blank a = false) wiki_data) dir)
    as (st' & H'); [by apply runs_filter|].
  exists st'. split; [done|].
  apply convert_finished in H' as (_ & Hf' & Hc' & Hs').
  rewrite foldl_put_filter_blank in Hf'. rewrite converts_filter_blank in Hc'.
  pose proof (length_filter_blank wiki_data).
  split_and!; [congruence|lia|lia|lia].
Qed.

Lemma blank_objects_left_out_witness :
  ∃ st',
    convert_json_to_documents
      (Articles (filter (λ a, blank a = false)
                   [to_article test_page; to_article blank_page])) ∅
    = Some (Finished st')
    ∧ {[ py "Test_Page.txt" := file_text test_page ]} = files st'
    ∧ 1 = converted_count st'
    ∧ 1 = skipped_count st'
          + length (filter (λ a, blank a = true)
                      [to_article test_page; to_article blank_page])
    ∧ 1 + 1 = length [to_article test_page; to_article blank_page].
Proof.
  refine (blank_objects_left_out
            [to_article test_page; to_article blank_page] ∅
            {| files := {[ py "Test_Page.txt" := file_text test_page ]};
               converted_count := 1; skipped_count := 1;
               title_var := Some (JStr (py "Empty")) |} _ _).
  - by repeat constructor.
  - reflexivity.
Defined.
(** ** The fetcher, further *)

Section listing_more.
Import Fetcher.
Implicit Types (script rest : list (reply listing)) (pages : list listing)
  (titles : list str) (run : listing_run).

Lemma lstrip_replicate (c : char) (s : str) :
  ∃ k, s = replicate k c ++ lstrip (char_in [c]) s.
Proof.
  induction s as [|x s [k IH]]; [by exists 0|]. cbn [lstrip char_in existsb].
  rewrite orb_false_r. destruct (N.eqb_spec x c) as [->|Hne].
  - exists (S k). simpl. by rewrite <-IH.
  - by exists 0.
Qed.

Lemma rstrip_replicate (c : char) (s : str) :
  ∃ k, s = rstrip (char_in [c]) s ++ replicate k c.
Proof.
  destruct (lstrip_replicate c (reverse s)) as [k Hk]. exists k.
  apply (f_equal reverse) in Hk.
  by rewrite reverse_involutive, reverse_app, reverse_replicate in Hk.
Qed.

Lemma apcontinue_param_not_empty (token : option str) :
  apcontinue_param token ≠ Some [].
Proof. by destruct token as [[|c t]|]. Qed.

(** Every loop that returns has read replies that deliver their pages
    with a token, and then one reply that fails or that has no token. *)
Lemma listing_loop_inv script titles token sent run :
  listing_loop script titles token sent = Some run →
  ∃ pages r,
    script = (Json <$> pages) ++ r :: unread run
    ∧ Forall (λ d, Spec.delivered d ∧ is_Some (apcontinue d)) pages
    ∧ requests run
      = sent ++ apcontinue_param token
          :: (apcontinue_param ∘ apcontinue <$> pages)
    ∧ ((Spec.fails r ∧ all_titles run = titles ++ Spec.titles_of pages)
       ∨ (∃ d, r = Json d ∧ Spec.delivered d ∧ apcontinue d = None
            ∧ all_titles run = titles ++ Spec.titles_of (pages ++ [d]))).
Proof.
  revert titles token sent.
  induction script as [|r0 script IH]; intros titles token sent; [done|].
  cbn [listing_loop]. destruct r0 as [|data].
  { intros [= <-]. exists [], Failed. cbn [fmap list_fmap app unread requests all_titles].
    split_and!; [done|done|done|]. left. unfold Spec.titles_of. simpl.
    by rewrite app_nil_r. }
  rewrite extend_titles_page_titles.
  destruct (Spec.page_titles data) as [ts|] eqn:Hts; cycle 1.
  { intros [= <-]. exists [], (Json data). cbn [fmap list_fmap app unread requests all_titles].
    split_and!; [done|done|done|]. left. unfold Spec.titles_of. simpl.
    by rewrite app_nil_r. }
  destruct (apcontinue data) as [tok|] eqn:Htok; cycle 1.
  { intros [= <-]. exists [], (Json data). cbn [fmap list_fmap app unread requests all_titles].
    split_and!; [done|done|done|]. right. exists data.
    split_and!; [done|by eexists|done|].
    by rewrite (titles_of_cons _ ts), app_nil_r. }
  intros (pages & r & Hs & Hp & Hreq & Ht)%IH.
  exists (data :: pages), r. split_and!.
  - by rewrite fmap_cons, <-app_comm_cons, <-Hs.
  - constructor; [|done]. split; [by eexists|by rewrite Htok].
  - rewrite Hreq, fmap_cons. cbn [compose]. by rewrite Htok, <-app_assoc.
  - destruct Ht as [[Hf Ht]|(d & -> & Hd & Hn & Ht)]; [left|right].
    + split; [done|].
      by rewrite Ht, (titles_of_cons _ ts), app_assoc.
    + exists d. split_and!; [done..|].
      by rewrite Ht, <-app_comm_cons, (titles_of_cons _ ts), app_assoc.
Qed.

(** The loop is left waiting exactly on replies that all deliver their
    pages with a token. *)
Lemma listing_loop_none script titles token sent :
  listing_loop script titles token sent = None
  ↔ Forall (λ r, ∃ d, r = Json d ∧ Spec.delivered d ∧ is_Some (apcontinue d))
      script.
Proof.
  revert titles token sent.
  induction script as [|r0 script IH]; intros titles token sent; [done|].
  cbn [listing_loop]. rewrite Forall_cons. destruct r0 as [|data].
  { split; [done|]. by intros [(d & ? & _) _]. }
  rewrite extend_titles_page_titles.
  destruct (Spec.page_titles data) as [ts|] eqn:Hts; cycle 1.
  { split; [done|]. intros [(d & [= <-] & [? Hd] & _) _]. congruence. }
  destruct (apcontinue data) as [tok|] eqn:Htok; cycle 1.
  { split; [done|]. intros [(d & [= <-] & _ & [? Hd]) _]. congruence. }
  rewrite IH. split; [|by intros []].
  intros H. split; [|done]. exists data.
  split_and!; [done|by eexists|by rewrite Htok].
Qed.

End listing_more.

(** X10. The base url of a scraper never ends with a slash: it is the
    url it was made from without its trailing slashes. *)
Theorem init_base_url (url : str) :
  last (Fetcher.base_url (Fetcher.init url)) ≠ Some 47%N
  ∧ ∃ k, url = Fetcher.base_url (Fetcher.init url) ++ replicate k 47%N.
Proof.
  unfold Fetcher.init. cbn [Fetcher.base_url]. split.
  - intros H. by apply last_rstrip in H.
  - apply (rstrip_replicate 47).
Qed.

(** X11. [get_all_page_titles] does not return exactly when every reply
    delivers its page with a continuation token: nothing but a failure or
    a reply without a token ends the loop. *)
Theorem get_all_page_titles_waits (script : list (reply Fetcher.listing)) :
  Fetcher.get_all_page_titles script = None
  ↔ Forall (λ r, ∃ d, r = Json d ∧ Spec.delivered d
                   ∧ is_Some (Fetcher.apcontinue d)) script.
Proof. apply listing_loop_none. Qed.

(** X12. Whenever [get_all_page_titles] returns, it has read replies that
    delivered their pages with a token and then one more reply, which
    either failed or delivered its page without a token; the titles
    returned are those of the pages delivered, in order. *)
Theorem get_all_page_titles_returns (script : list (reply Fetcher.listing))
    (run : Fetcher.listing_run) :
  Fetcher.get_all_page_titles script = Some run →
  ∃ pages r,
    script = (Json <$> pages) ++ r :: Fetcher.unread run
    ∧ Forall (λ d, Spec.delivered d ∧ is_Some (Fetcher.apcontinue d)) pages
    ∧ ((Spec.fails r ∧ Fetcher.all_titles run = Spec.titles_of pages)
       ∨ (∃ d, r = Json d ∧ Spec.delivered d ∧ Fetcher.apcontinue d = None
            ∧ Fetcher.all_titles run = Spec.titles_of (pages ++ [d]))).
Proof.
  intros (pages & r & Hs & Hp & _ & Ht)%listing_loop_inv.
  exists pages, r. split_and!; [done|done|]. apply Ht.
Qed.

Lemma get_all_page_titles_returns_witness :
  ∃ pages r,
    [Json first_listing; Failed; Json last_listing]
    = (Json <$> pages) ++ r :: [Json last_listing]
    ∧ Forall (λ d, Spec.delivered d ∧ is_Some (Fetcher.apcontinue d)) pages
    ∧ ((Spec.fails r ∧ [py "Alpha"; py "Beta"] = Spec.titles_of pages)
       ∨ (∃ d, r = Json d ∧ Spec.delivered d ∧ Fetcher.apcontinue d = None
            ∧ [py "Alpha"; py "Beta"] = Spec.titles_of (pages ++ [d]))).
Proof.
  apply (get_all_page_titles_returns
           [Json first_listing; Failed; Json last_listing]
           {| Fetcher.all_titles := [py "Alpha"; py "Beta"];
              Fetcher.requests := [None; Some (py "Gamma")];
              Fetcher.unread := [Json last_listing] |}).
  reflexivity.
Defined.

(** X13. Whenever [get_all_page_titles] returns, it has sent one request
    for each reply it read; the first request has no [apcontinue], and no
    request has an empty one. *)
Theorem get_all_page_titles_requests (script : list (reply Fetcher.listing))
    (run : Fetcher.listing_run) :
  Fetcher.get_all_page_titles script = Some run →
  length (Fetcher.requests run) + length (Fetcher.unread run) = length script
  ∧ head (Fetcher.requests run) = Some None
  ∧ Forall (λ p, p ≠ Some []) (Fetcher.requests run).
Proof.
  intros (pages & r & Hs & _ & Hreq & _)%listing_loop_inv.
  rewrite Hreq. cbn [app]. split_and!.
  - rewrite Hs, length_app, !length_cons, !length_fmap. lia.
  - done.
  - constructor; [done|]. apply Forall_fmap, Forall_true.
    intros d. apply apcontinue_param_not_empty.
Qed.

Lemma get_all_page_titles_requests_witness :
  length [None; Some (py "Gamma")] + length [Json last_listing]
  = length [Json first_listing; Failed; Json last_listing]
  ∧ head [None; Some (py "Gamma")] = Some None
  ∧ Forall (λ p, p ≠ Some []) [None; Some (py "Gamma")].
Proof.
  apply (get_all_page_titles_requests
           [Json first_listing; Failed; Json last_listing]
           {| Fetcher.all_titles := [py "Alpha"; py "Beta"];
              Fetcher.requests := [None; Some (py "Gamma")];
              Fetcher.unread := [Json last_listing] |}).
  reflexivity.
Defined.

Section content_more.
Import Fetcher.
Implicit Types (pages : list (str * page_data)) (s raw t : str)
  (fetched : list (str * reply (list (str * page_data)))).


Lemma count_tokens_positive s c :
  head s = Some c → isspace c = false → 1 ≤ Spec.count_tokens s.
Proof.
  destruct s as [|c' s]; [done|]. intros [= ->] Hc.
  unfold Spec.count_tokens. simpl. rewrite Hc. lia.
Qed.

(** What a record that the run produces looks like. *)
Lemma produced_record base job r :
  Spec.produced base job = Some r →
  get_page_content job.1 job.2 = Some (raw_content r)
  ∧ title r = job.1
  ∧ content r = strip (raw_content r)
  ∧ content r ≠ []
  ∧ word_count r = Spec.count_tokens (content r).
Proof.
  unfold Spec.produced. destruct (get_page_content _ _) as [raw|]; [|done].
  destruct (decide (strip raw = [])); [done|]. by intros [= <-].
Qed.

Lemma scrape_pages_app (self : MediaWikiScraper) fetched1 fetched2 :
  scrape_pages self (fetched1 ++ fetched2)
  = scrape_pages self fetched1 ++ scrape_pages self fetched2.
Proof.
  induction fetched1 as [|[t r] fetched1 IH]; [done|].
  cbn [app scrape_pages]. by rewrite IH, app_assoc.
Qed.

Lemma tmp_file_other (out : str) : tmp_file out ≠ out.
Proof.
  unfold tmp_file. intros H. apply (f_equal length) in H.
  rewrite length_app in H. simpl in H. lia.
Qed.

Lemma scrape_loop_app (self : MediaWikiScraper) (out : str) i fetched1 fetched2 st :
  scrape_loop self out i (fetched1 ++ fetched2) st
  = match scrape_loop self out i fetched1 st with
    | inl st' => scrape_loop self out (i + length fetched1) fetched2 st'
    | inr failure => inr failure
    end.
Proof.
  revert i st. induction fetched1 as [|[t r] fetched1 IH]; intros i st.
  - simpl. by rewrite Nat.add_0_r.
  - cbn [app scrape_loop length].
    replace (i + S (length fetched1)) with (S i + length fetched1) by lia.
    destruct (reports_error r && negb (encodable t)); [done|].
    destruct ((i + 1) mod 100 =? 0); [|by rewrite IH].
    destruct (json_dump _ _ _) as [d|[e d]]; [|done]. by rewrite IH.
Qed.

(** The records of the first titles are among the records of all. *)
Lemma dumpable_take (self : MediaWikiScraper) fetched k :
  forallb dumpable (scrape_pages self fetched) = true →
  forallb dumpable (scrape_pages self (take k fetched)) = true.
Proof.
  rewrite <-(take_drop k fetched) at 1. rewrite scrape_pages_app, forallb_app.
  by intros [H _]%andb_true_iff.
Qed.

(** The state of the loop after the titles of [fetched].  When the loop
    ends: the records so far, the checkpoint file with the records up to
    the last multiple of 100 titles.  When a checkpoint cannot be
    written: the checkpoint file is cut off.  Every other file is as it
    was. *)
Lemma scrape_loop_state (self : MediaWikiScraper) (out : str) fetched
    (files : gmap str dumped) :
  Forall (λ job, encodable job.1 = true) fetched →
  match scrape_loop self out 0 fetched
          {| scraped_content := []; disk := files |} with
  | inl st =>
      scraped_content st = scrape_pages self fetched
      ∧ disk st !! tmp_file out
        = (if decide (100 ≤ length fetched)
           then Some (Whole (scrape_pages self
                               (take (100 * (length fetched / 100)) fetched)))
           else files !! tmp_file out)
      ∧ ∀ path, path ≠ tmp_file out → disk st !! path = files !! path
  | inr (e, st) =>
      e = UnicodeEncodeError
      ∧ (∃ k, 0 < k ∧ 100 * k ≤ length fetched
            ∧ scraped_content st = scrape_pages self (take (100 * k) fetched)
            ∧ forallb dumpable (scraped_content st) = false
            ∧ disk st !! tmp_file out = Some (Cut (scraped_content st)))
      ∧ ∀ path, path ≠ tmp_file out → disk st !! path = files !! path
  end.
Proof.
  induction fetched as [|[t r] fetched IH] using rev_ind.
  { intros _. simpl. by split_and!. }
  intros [Hpre Hpt]%Forall_app. apply Forall_cons in Hpt as [Hpt _].
  simpl in Hpt. specialize (IH Hpre). clear Hpre. rewrite scrape_loop_app.
  destruct (scrape_loop self out 0 fetched _) as [st|[e st]].
  - cbn [scrape_loop Nat.add]. rewrite Hpt, andb_false_r.
    destruct IH as (Hs & Ht & Ho). rewrite Hs.
    rewrite length_app. cbn [length]. set (n := length fetched) in *.
    assert (scrape_pages self fetched ++ scrape_page self t r
            = scrape_pages self (fetched ++ [(t, r)])) as Hall.
    { rewrite scrape_pages_app. cbn [scrape_pages]. by rewrite app_nil_r. }
    pose proof (Nat.div_mod_eq (n + 1) 100) as Hdm.
    pose proof (Nat.mod_upper_bound (n + 1) 100 ltac:(done)) as Hlt.
    pose proof (Nat.div_mod_eq n 100) as Hdm'.
    pose proof (Nat.mod_upper_bound n 100 ltac:(done)) as Hlt'.
    assert (length (fetched ++ [(t, r)]) = n + 1) as Hlen
      by (by rewrite length_app).
    destruct ((n + 1) mod 100 =? 0) eqn:E.
    + apply Nat.eqb_eq in E. unfold json_dump.
      destruct (forallb dumpable _) eqn:Ed; cbn [scraped_content disk].
      * split_and!; [done| |].
        -- rewrite lookup_insert_eq, decide_True by lia.
           by rewrite take_ge, Hall by lia.
        -- intros path Hp. rewrite lookup_insert_ne by done. by apply Ho.
      * split_and!; [done| |].
        -- exists ((n + 1) / 100). split_and!; [lia|lia| |done|].
           ++ by rewrite take_ge, Hall by lia.
           ++ by rewrite lookup_insert_eq.
        -- intros path Hp. rewrite lookup_insert_ne by done. by apply Ho.
    + apply Nat.eqb_neq in E. cbn [scraped_content disk].
      split_and!; [done| |done]. rewrite Ht.
      assert ((n + 1) / 100 = n / 100) as ->.
      { symmetry.
        apply (Nat.div_unique (n + 1) 100 (n / 100) (n mod 100 + 1)); lia. }
      destruct (decide (100 ≤ n)), (decide (100 ≤ n + 1)); try lia; [|done].
      by rewrite take_app_le by lia.
  - destruct IH as (He & (k & Hk & Hle & Hs & Hd & Ht) & Ho).
    split_and!; [done| |done]. exists k. rewrite length_app.
    split_and!; [done|lia| |done|done]. by rewrite take_app_le by lia.
Qed.

End content_more.


(** X15. [clean_wikitext] gives a text without white space at either
    end, and cleaning it again changes nothing. *)
Theorem clean_wikitext_trimmed (wikitext : option str) :
  let clean := Fetcher.clean_wikitext wikitext in
  Fetcher.clean_wikitext (Some clean) = clean
  ∧ (∀ c, head clean = Some c → isspace c = false)
  ∧ (∀ c, last clean = Some c → isspace c = false).
Proof.
  destruct wikitext as [[|c w]|]; cbv zeta; cbn [Fetcher.clean_wikitext];
    [done| |done].
  split_and!.
  - destruct (strip (c :: w)) as [|c' w'] eqn:E; [done|].
    cbn [Fetcher.clean_wikitext]. rewrite <-E. apply strip_by_idemp.
  - intros x. apply head_strip_by.
  - intros x. apply last_strip_by.
Qed.

(** X16. Every record of a run has content: the content is the raw
    content trimmed and is not empty, it starts and ends with a character
    that is not white space, the word count is at least one, and the raw
    content is what the request for its title returned. *)
Theorem scrape_pages_record_invariant (self : Fetcher.MediaWikiScraper)
    (fetched : list (str * reply (list (str * Fetcher.page_data))))
    (r : Fetcher.ArticleRecord) :
  r ∈ Fetcher.scrape_pages self fetched →
  Fetcher.content r = strip (Fetcher.raw_content r)
  ∧ Fetcher.content r ≠ []
  ∧ (∀ c, head (Fetcher.content r) = Some c → isspace c = false)
  ∧ (∀ c, last (Fetcher.content r) = Some c → isspace c = false)
  ∧ 1 ≤ Fetcher.word_count r
  ∧ ∃ reply, (Fetcher.title r, reply) ∈ fetched
      ∧ Fetcher.get_page_content (Fetcher.title r) reply
        = Some (Fetcher.raw_content r).
Proof.
  rewrite scrape_pages_produced.
  intros ([t reply] & Hin & Hr)%list_elem_of_omap.
  apply produced_record in Hr as (Hg & Ht & Hc & Hne & Hw). simpl in *.
  assert (∀ c, head (Fetcher.content r) = Some c → isspace c = false) as Hh.
  { intros c. rewrite Hc. apply head_strip_by. }
  split_and!; [done|done|done| | |].
  - intros c. rewrite Hc. apply last_strip_by.
  - rewrite Hw. destruct (Fetcher.content r) as [|c s] eqn:E; [done|].
    by apply (count_tokens_positive _ c), Hh.
  - exists reply. by rewrite Ht.
Qed.

Lemma scrape_pages_record_invariant_witness :
  let r := Spec.article_record (py "https://wiki.example") (py "Test Page")
             (py " Hello world ") in
  Fetcher.content r = strip (Fetcher.raw_content r)
  ∧ Fetcher.content r ≠ []
  ∧ (∀ c, head (Fetcher.content r) = Some c → isspace c = false)
  ∧ (∀ c, last (Fetcher.content r) = Some c → isspace c = false)
  ∧ 1 ≤ Fetcher.word_count r
  ∧ ∃ reply,
      (Fetcher.title r, reply)
      ∈ [(py "Test Page", Json [(py "8", visible_revision)])]
      ∧ Fetcher.get_page_content (Fetcher.title r) reply
        = Some (Fetcher.raw_content r).
Proof.
  apply (scrape_pages_record_invariant
           (Fetcher.init (py "https://wiki.example/"))
           [(py "Test Page", Json [(py "8", visible_revision)])]).
  vm_compute. apply list_elem_of_here.
Defined.

(** X17. The titles of the records of a run are titles of the list, in
    the order of the list, each title at most as often as it is in the
    list. *)
Theorem scrape_pages_titles (self : Fetcher.MediaWikiScraper)
    (fetched : list (str * reply (list (str * Fetcher.page_data)))) :
  (Fetcher.title <$> Fetcher.scrape_pages self fetched)
    `sublist_of` (fetched.*1)
  ∧ length (Fetcher.scrape_pages self fetched) ≤ length fetched.
Proof.
  rewrite scrape_pages_produced.
  induction fetched as [|[t reply] fetched [IH1 IH2]]; [done|].
  cbn [omap list_omap].
  destruct (Spec.produced _ (t, reply)) as [r|] eqn:E.
  - apply produced_record in E as (_ & Ht & _). simpl in Ht.
    rewrite !fmap_cons, Ht. split; [by apply sublist_skip|simpl; lia].
  - rewrite fmap_cons. split; [by apply sublist_cons|simpl; lia].
Qed.

(** X18. The exporter converts every record that the fetcher produces,
    when the files of these records can be written: the run ends and
    none of the records is skipped. *)
Theorem export_scraped_skips_none (self : Fetcher.MediaWikiScraper)
    (fetched : list (str * reply (list (str * Fetcher.page_data))))
    (dir : gmap str str) :
  Forall writable (Fetcher.scrape_pages self fetched) →
  ∃ st,
    export (Fetcher.scrape_pages self fetched) dir = Some (Finished st)
    ∧ skipped_count st = 0
    ∧ converted_count st = length (Fetcher.scrape_pages self fetched).
Proof.
  intros Hw.
  assert (filter (λ r, has_content r = false)
            (Fetcher.scrape_pages self fetched) = []) as Hnone.
  { destruct (filter (λ r, has_content r = false)
                (Fetcher.scrape_pages self fetched)) as [|r l] eqn:E;
      [done|]. exfalso.
    assert (r ∈ r :: l) as Hr by left. rewrite <-E in Hr.
    apply list_elem_of_filter in Hr as [Hr Hin].
    rewrite scrape_pages_produced in Hin.
    apply list_elem_of_omap in Hin as (job & _ & Hj).
    apply produced_record in Hj as (_ & _ & Hc' & Hne & _).
    unfold has_content in Hr. rewrite bool_decide_eq_false in Hr.
    apply Hr. rewrite Hc'. unfold strip.
    rewrite strip_by_idemp. fold strip. by rewrite <-Hc'. }
  destruct (export_writable (Fetcher.scrape_pages self fetched) dir)
    as (st & -> & _ & Hc & Hs).
  { rewrite Forall_forall in Hw. apply Forall_forall.
    intros r [_ Hr]%list_elem_of_filter. by apply Hw. }
  exists st. split; [done|].
  pose proof (length_filter_has_content (Fetcher.scrape_pages self fetched)).
  rewrite Hnone in *. simpl in *. lia.
Qed.

Lemma export_scraped_skips_none_witness :
  ∃ st,
    export
      (Fetcher.scrape_pages (Fetcher.init (py "https://wiki.example/"))
         [(py "Test Page", Json [(py "8", visible_revision)])]) ∅
    = Some (Finished st)
    ∧ skipped_count st = 0
    ∧ converted_count st
      = length
          (Fetcher.scrape_pages (Fetcher.init (py "https://wiki.example/"))
             [(py "Test Page", Json [(py "8", visible_revision)])]).
Proof.
  apply (export_scraped_skips_none
           (Fetcher.init (py "https://wiki.example/"))
           [(py "Test Page", Json [(py "8", visible_revision)])] ∅).
  by repeat constructor.
Defined.

(** X19. For titles that can be printed, as the message of line 98 needs
    them.  When the listing returns no title, [scrape_all_content]
    returns nothing and writes nothing.  Otherwise, when the strings of
    the records can all be encoded, it returns the records of the
    titles, the output file holds exactly these records and the
    checkpoint file is gone, whether or not it was there before; when
    they cannot, [UnicodeEncodeError] leaves the function, and the
    output file is as it was or is cut off.  Every other file is as it
    was. *)
Theorem scrape_all_content_result (self : Fetcher.MediaWikiScraper)
    (script : list (reply Fetcher.listing))
    (contents : nat → str → reply (list (str * Fetcher.page_data)))
    (output_file : str) (files : gmap str Fetcher.dumped)
    (run : Fetcher.listing_run) :
  Fetcher.get_all_page_titles script = Some run →
  Forall (λ t, encodable t = true) (Fetcher.all_titles run) →
  match Fetcher.all_titles run with
  | [] =>
      Fetcher.scrape_all_content self script contents output_file files
      = Some (Fetcher.Returned None files)
  | _ :: _ =>
      let records :=
        Fetcher.scrape_pages self
          (imap (λ i t, (t, contents i t)) (Fetcher.all_titles run)) in
      ∃ disk',
        (if forallb Fetcher.dumpable records
         then
           Fetcher.scrape_all_content self script contents output_file files
           = Some (Fetcher.Returned (Some records) disk')
           ∧ disk' !! output_file = Some (Fetcher.Whole records)
           ∧ disk' !! Fetcher.tmp_file output_file = None
         else
           Fetcher.scrape_all_content self script contents output_file files
           = Some (Fetcher.ScrapeRaised UnicodeEncodeError disk')
           ∧ (disk' !! output_file = files !! output_file
              ∨ disk' !! output_file = Some (Fetcher.Cut records)))
        ∧ ∀ path, path ≠ output_file → path ≠ Fetcher.tmp_file output_file →
                  disk' !! path = files !! path
  end.
Proof.
  intros Hrun Hp. unfold Fetcher.scrape_all_content. rewrite Hrun.
  destruct (Fetcher.all_titles run) as [|t titles]; [done|]. cbv zeta.
  set (fetched := imap _ (t :: titles)).
  assert (Forall (λ job, encodable job.1 = true) fetched) as Hjobs.
  { apply Forall_lookup. intros i [t' r]. unfold fetched.
    rewrite list_lookup_imap. rewrite Forall_lookup in Hp.
    destruct ((t :: titles) !! i) as [t''|] eqn:Et; [|done].
    intros [= <- _]. by apply (Hp i). }
  pose proof (scrape_loop_state self output_file fetched files Hjobs)
    as Hloop.
  pose proof (tmp_file_other output_file) as Hne.
  destruct (Fetcher.scrape_loop _ _ _ _ _) as [st|[e st]].
  - destruct Hloop as (Hs & _ & Ho). unfold Fetcher.final_save.
    rewrite Hs. unfold Fetcher.json_dump.
    destruct (forallb Fetcher.dumpable _); eexists; cbn [Fetcher.disk];
      (split; [split; [reflexivity|]|]).
    + split; [|apply lookup_delete_eq].
      by rewrite lookup_delete_ne, lookup_insert_eq.
    + intros path H1 H2. rewrite lookup_delete_ne, lookup_insert_ne by done.
      by apply Ho.
    + right. by rewrite lookup_insert_eq.
    + intros path H1 H2. rewrite lookup_insert_ne by done. by apply Ho.
  - destruct Hloop as (-> & (k & _ & _ & Hs & Hd & _) & Ho).
    destruct (forallb Fetcher.dumpable (Fetcher.scrape_pages self fetched))
      eqn:Ed.
    { apply (dumpable_take self fetched (100 * k)) in Ed.
      rewrite <-Hs in Ed. congruence. }
    exists (Fetcher.disk st). split; [split; [done|]|].
    + left. apply Ho. intros H. by apply Hne.
    + intros path _ H2. by apply Ho.
Qed.

Lemma scrape_all_content_result_witness :
  let records :=
    [Spec.article_record (py "https://wiki.example") (py "Gamma")
       (py " Hello world ")] in
  ∃ disk',
    (Fetcher.scrape_all_content (Fetcher.init (py "https://wiki.example/"))
       [Json last_listing] (λ _ _, Json [(py "8", visible_revision)])
       (py "wiki.json") {[ py "wiki.json.tmp" := Fetcher.Whole [test_page] ]}
     = Some (Fetcher.Returned (Some records) disk')
     ∧ disk' !! py "wiki.json" = Some (Fetcher.Whole records)
     ∧ disk' !! py "wiki.json.tmp" = None)
    ∧ ∀ path, path ≠ py "wiki.json" → path ≠ py "wiki.json.tmp" →
              disk' !! path
              = ({[ py "wiki.json.tmp" := Fetcher.Whole [test_page] ]}
                   : gmap str Fetcher.dumped) !! path.
Proof.
  refine (scrape_all_content_result
            (Fetcher.init (py "https://wiki.example/"))
            [Json last_listing] (λ _ _, Json [(py "8", visible_revision)])
            (py "wiki.json")
            {[ py "wiki.json.tmp" := Fetcher.Whole [test_page] ]}
            {| Fetcher.all_titles := [py "Gamma"];
               Fetcher.requests := [None];
               Fetcher.unread := [] |} _ _).
  - reflexivity.
  - by repeat constructor.
Defined.

(** X20. For titles that can be printed, as the message of line 98 needs
    them.  When the loop has handled the titles: the list in memory
    holds the records of all of them; the checkpoint file holds the
    records of the titles up to the last multiple of 100, or what it
    held before the run when fewer than 100 titles are done.  When a
    checkpoint cannot be written, after some multiple of 100 titles,
    because a string of a record cannot be encoded:
    [UnicodeEncodeError] leaves the loop and the checkpoint file is cut
    off.  In both cases no other file has changed, so the output file is
    not written before the loop ends. *)
Theorem checkpoint_after (self : Fetcher.MediaWikiScraper) (output_file : str)
    (fetched : list (str * reply (list (str * Fetcher.page_data))))
    (files : gmap str Fetcher.dumped) :
  Forall (λ job, encodable job.1 = true) fetched →
  match Fetcher.scrape_loop self output_file 0 fetched
          {| Fetcher.scraped_content := []; Fetcher.disk := files |} with
  | inl st =>
      Fetcher.scraped_content st = Fetcher.scrape_pages self fetched
      ∧ Fetcher.disk st !! Fetcher.tmp_file output_file
        = (if decide (100 ≤ length fetched)
           then Some (Fetcher.Whole
                        (Fetcher.scrape_pages self
                           (take (100 * (length fetched / 100)) fetched)))
           else files !! Fetcher.tmp_file output_file)
      ∧ ∀ path, path ≠ Fetcher.tmp_file output_file →
                Fetcher.disk st !! path = files !! path
  | inr (e, st) =>
      e = UnicodeEncodeError
      ∧ (∃ k, 0 < k ∧ 100 * k ≤ length fetched
            ∧ Fetcher.scraped_content st
              = Fetcher.scrape_pages self (take (100 * k) fetched)
            ∧ forallb Fetcher.dumpable (Fetcher.scraped_content st) = false
            ∧ Fetcher.disk st !! Fetcher.tmp_file output_file
              = Some (Fetcher.Cut (Fetcher.scraped_content st)))
      ∧ ∀ path, path ≠ Fetcher.tmp_file output_file →
                Fetcher.disk st !! path = files !! path
  end.
Proof. apply scrape_loop_state. Qed.

Lemma checkpoint_after_witness :
  let self := Fetcher.init (py "https://wiki.example/") in
  let fetched :=
    replicate 100 (py "Test Page", Json [(py "8", visible_revision)]) in
  ∃ st,
    Fetcher.scrape_loop self (py "wiki.json") 0 fetched
      {| Fetcher.scraped_content := []; Fetcher.disk := ∅ |} = inl st
    ∧ Fetcher.scraped_content st = Fetcher.scrape_pages self fetched
    ∧ Fetcher.disk st !! py "wiki.json.tmp"
      = Some (Fetcher.Whole (Fetcher.scrape_pages self fetched)).
Proof.
  intros self fetched.
  assert (Forall (λ job : str * reply (list (str * Fetcher.page_data)),
                    encodable job.1 = true) fetched) as Ht
    by (by apply Forall_replicate).
  pose proof (checkpoint_after self (py "wiki.json") fetched ∅ Ht) as H.
  assert (Fetcher.scrape_loop self (py "wiki.json") 0 fetched
            {| Fetcher.scraped_content := []; Fetcher.disk := ∅ |}
          = inl {| Fetcher.scraped_content := Fetcher.scrape_pages self fetched;
                   Fetcher.disk :=
                     {[ py "wiki.json.tmp" :=
                          Fetcher.Whole (Fetcher.scrape_pages self fetched) ]} |})
    as E by (vm_compute; reflexivity).
  rewrite E in H. destruct H as (Hs & Hd & _).
  eexists. split; [exact E|]. split; [exact Hs|].
  vm_compute. reflexivity.
Defined.
